(** * Label layout and text fitting of the barcode generator

    A shallow embedding of the Go package [barcode] (files barcode.go,
    dimensions.go, fonts.go and rendering.go) and the properties of its
    layout pipeline: unit conversion, symbol sizing, centring, and the
    recursive shrink-to-fit of text lines.

    Go's [int] is the 64-bit two's-complement integer, embedded in [Z]
    with the wrap-around written out ([Int]).  Go's [float64] is IEEE 754
    binary64, embedded as [spec_float] with the correctly rounded
    operations of the standard library's [SpecFloat] at precision 53 and
    maximal exponent 1024 ([F64]); the one product that is added to
    ([height * 2] in [calculateTextHeight]) is exact, so a compiler that
    fuses it with the addition computes the same.  The encoder, scaler,
    rasterizer and exporter libraries the package calls are collaborators,
    gathered in a record the functions take as a parameter. *)

From Stdlib Require Import ZArith List Lia Bool String Ascii.
From Stdlib Require Import Floats.SpecFloat.
Import ListNotations.
Local Open Scope Z_scope.

(* ------------------------------------------------------------------ *)
(** ** Go's [int] *)

Module Int.

Definition min_int : Z := - 2 ^ 63.
Definition max_int : Z := 2 ^ 63 - 1.

Definition in_range (z : Z) : Prop := min_int <= z <= max_int.

(** Two's-complement wrap-around of a mathematical result. *)
Definition wrap (z : Z) : Z := (z + 2 ^ 63) mod 2 ^ 64 - 2 ^ 63.

Definition add (a b : Z) : Z := wrap (a + b).
Definition sub (a b : Z) : Z := wrap (a - b).
Definition mul (a b : Z) : Z := wrap (a * b).

(** Go's [/] truncates toward zero; [min_int / -1] wraps. *)
Definition quo (a b : Z) : Z := wrap (Z.quot a b).

End Int.

(* ------------------------------------------------------------------ *)
(** ** Go's [float64] *)

Module F64.

Definition prec : Z := 53.
Definition emax : Z := 1024.

Definition float64 : Type := spec_float.

Definition add : float64 -> float64 -> float64 := SFadd prec emax.
Definition sub : float64 -> float64 -> float64 := SFsub prec emax.
Definition mul : float64 -> float64 -> float64 := SFmul prec emax.
Definition div : float64 -> float64 -> float64 := SFdiv prec emax.

Definition ltb : float64 -> float64 -> bool := SFltb.
Definition eqb : float64 -> float64 -> bool := SFeqb.

(** The conversion [float64(n)] of an [int]: the nearest double, ties to
    even. *)
Definition of_int (n : Z) : float64 := binary_normalize prec emax n 0 false.

(** The magnitude of a finite double [m * 2^e], rounded toward zero. *)
Definition trunc_mag (m : positive) (e : Z) : Z :=
  match e with
  | Zneg p => Z.shiftr (Zpos m) (Zpos p)
  | _ => Z.shiftl (Zpos m) e
  end.

(** The conversion [int(f)]: truncation toward zero.  The Go
    specification leaves the result open when the value does not fit
    (or is a NaN); amd64's CVTTSD2SQ, which the compiler emits, yields
    the most negative integer, and so does this definition. *)
Definition to_int (f : float64) : Z :=
  match f with
  | S754_zero _ => 0
  | S754_finite s m e =>
      let z := if s then - trunc_mag m e else trunc_mag m e in
      if (Int.min_int <=? z) && (z <=? Int.max_int) then z else Int.min_int
  | _ => Int.min_int
  end.

Definition is_nan (f : float64) : bool :=
  match f with S754_nan => true | _ => false end.

Definition is_neg_inf (f : float64) : bool :=
  match f with S754_infinity true => true | _ => false end.

Definition signbit (f : float64) : bool :=
  match f with
  | S754_zero s | S754_infinity s | S754_finite s _ _ => s
  | S754_nan => false
  end.

(** [math.Min], with its special cases in the order of the Go source:
    a negative infinity wins, then a NaN, then the sign of zeros. *)
Definition Min (x y : float64) : float64 :=
  if is_neg_inf x || is_neg_inf y then S754_infinity true
  else if is_nan x || is_nan y then S754_nan
  else if eqb x (S754_zero false) && eqb x y
       then (if signbit x then x else y)
  else if ltb x y then x else y.

(** The decimal literals of the source, as the doubles the compiler
    rounds them to. *)
Definition c0_1 : float64 := S754_finite false 7205759403792794 (-56).
Definition c1_1 : float64 := S754_finite false 4953959590107546 (-52).
Definition c25_4 : float64 := S754_finite false 7149464408450662 (-48).
Definition c0_0 : float64 := S754_zero false.
Definition c1_0 : float64 := of_int 1.
Definition c2_0 : float64 := of_int 2.
Definition c8_0 : float64 := of_int 8.
Definition c10_0 : float64 := of_int 10.
Definition c12_0 : float64 := of_int 12.

(** *** Integers that are doubles

    [canonZ n] is the double whose value is the integer [n], for the
    integers that have one ([exact_int]): those whose bits below the
    53 leading ones are zero. *)
Definition fin (s : bool) (m : Z) (e : Z) : float64 :=
  match m with
  | Zpos p => S754_finite s p e
  | _ => S754_zero s
  end.

Definition canonZ (n : Z) : float64 :=
  let a := Z.abs n in
  let d := Z.log2 a + 1 in
  fin (n <? 0) (if d <=? 53 then a * 2 ^ (53 - d) else a / 2 ^ (d - 53)) (d - 53).

Definition exact_int (n : Z) : Prop :=
  Z.abs n mod 2 ^ Z.max 0 (Z.log2 (Z.abs n) - 52) = 0.

(** Equality of doubles as data (a NaN is the same as itself, the two
    zeros differ). *)
Definition same (x y : float64) : bool :=
  match x, y with
  | S754_zero a, S754_zero b | S754_infinity a, S754_infinity b => Bool.eqb a b
  | S754_nan, S754_nan => true
  | S754_finite a m e, S754_finite b n f => Bool.eqb a b && Pos.eqb m n && Z.eqb e f
  | _, _ => false
  end.

(** Doubles below zero, the negative zero included: what a [> 0] test
    rejects without being a NaN. *)
Definition negative (f : float64) : bool :=
  match f with
  | S754_zero s | S754_infinity s | S754_finite s _ _ => s
  | S754_nan => false
  end.

End F64.

Abbreviation float64 := F64.float64.

(* ------------------------------------------------------------------ *)
(** ** Geometry: [image.Point] and [image.Rectangle] *)

Record Point : Type := Pt { X : Z; Y : Z }.

Record Rectangle : Type := MkRect { Min : Point; Max : Point }.

(** [image.Rect]: the rectangle with the given corners, put in canonical
    order. *)
Definition image_Rect (x0 y0 x1 y1 : Z) : Rectangle :=
  let '(x0, x1) := if x1 <? x0 then (x1, x0) else (x0, x1) in
  let '(y0, y1) := if y1 <? y0 then (y1, y0) else (y0, y1) in
  MkRect (Pt x0 y0) (Pt x1 y1).

Definition Dx (r : Rectangle) : Z := Int.sub (X (Max r)) (X (Min r)).
Definition Dy (r : Rectangle) : Z := Int.sub (Y (Max r)) (Y (Min r)).

Definition Rectangle_Add (r : Rectangle) (p : Point) : Rectangle :=
  MkRect (Pt (Int.add (X (Min r)) (X p)) (Int.add (Y (Min r)) (Y p)))
         (Pt (Int.add (X (Max r)) (X p)) (Int.add (Y (Max r)) (Y p))).

(** [image.NewRGBA] takes the length of its pixel buffer, four bytes a
    pixel, from [mul3NonNeg], which multiplies in 64 bits and gives -1
    when an argument is negative or a product does not fit; on -1
    [image.NewRGBA] panics. *)
Definition mul3NonNeg (x y z : Z) : Z :=
  if (x <? 0) || (y <? 0) || (z <? 0) then -1
  else if 2 ^ 64 <=? x * y then -1
  else if 2 ^ 64 <=? x * y * z then -1
  else if Int.max_int <? x * y * z then -1
  else x * y * z.

Definition NewRGBA_panics (r : Rectangle) : bool :=
  mul3NonNeg 4 (Dx r) (Dy r) <? 0.

(* ------------------------------------------------------------------ *)
(** ** The data model of barcode.go *)

(** [BarcodeType], [TextPosition] and [TextSize] are string types in the
    source: any string is a value, the constants name the supported ones. *)
Definition BarcodeType : Type := string.
Definition BarcodeTypeCode128 : BarcodeType := "CODE128"%string.
Definition BarcodeTypeQR : BarcodeType := "QR"%string.

Definition TextPosition : Type := string.
Definition TextPositionAbove : TextPosition := "ABOVE"%string.
Definition TextPositionBelow : TextPosition := "BELOW"%string.

Definition TextSize : Type := string.
Definition TextSizeSmall : TextSize := "SMALL"%string.
Definition TextSizeMedium : TextSize := "MEDIUM"%string.
Definition TextSizeLarge : TextSize := "LARGE"%string.

Record TextLine : Type := MkTextLine {
  Text : string;
  Position : TextPosition;
  Size : TextSize
}.

Record BarcodeInput : Type := MkBarcodeInput {
  BarcodeData : string;
  BarcodeType_ : BarcodeType;
  Width : float64;
  Height : float64;
  Dpi : Z;
  TextLines : list TextLine
}.

Record BarcodeOutput : Type := MkBarcodeOutput {
  ImageBase64 : string;
  ZPL : string
}.

(** An encoded symbol, as far as the package looks at it: its bounds, and
    what it encodes. *)
Record Barcode : Type := MkBarcode {
  bcContent : string;
  bcDimensions : Z;
  bcBounds : Rectangle
}.

Inductive Color : Type := White | Black.

(** What has been painted on a label, in order.  The package never reads a
    pixel back, so the label is its bounds and the list of paint
    operations applied to it. *)
Inductive DrawOp : Type :=
| FillUniform (r : Rectangle) (c : Color)
| DrawOver (position : Rectangle) (bc : Barcode) (sp : Point)
| DrawString (text : string) (pt : Point) (fontSize dpi : float64) (c : Color).

Record RGBA : Type := MkRGBA { Bounds : Rectangle; Ops : list DrawOp }.

Definition paint (img : RGBA) (op : DrawOp) : RGBA :=
  MkRGBA (Bounds img) (Ops img ++ [op]).

(** Errors of the libraries the package calls carry their message. *)
Definition lib_error : Type := string.

(** The errors [GenerateBarcode] returns, one constructor per
    [fmt.Errorf] of the source, and the scaler's error, which is returned
    as it is. *)
Inductive error : Type :=
| ErrInvalidDpi (dpi : Z)
| ErrInvalidBarcodeType (t : BarcodeType)
| ErrUnsupportedBarcodeType (t : BarcodeType)
| ErrEncodeCode128 (cause : lib_error)
| ErrEncodeQR (cause : lib_error)
| ErrScale (cause : lib_error)
| ErrImageToBase64 (cause : lib_error).

(** How a call ends when it ends: with a value, with an error, or in a
    panic that is not recovered. *)
Inductive result (A : Type) : Type :=
| Ok (a : A)
| Err (e : error)
| Panic (reason : string).
Arguments Ok {A} a.
Arguments Err {A} e.
Arguments Panic {A} reason.

(** ** The collaborators

    [code128.Encode], [qr.Encode] and [barcode.Scale] of boombuler/barcode;
    the measurements of a freetype face of the Go Regular font at a point
    size and resolution ([font.MeasureString(face, text).Ceil()] and
    [face.Metrics().Height.Ceil()]); [png.Encode] with the base64 encoder,
    and the ZPL converter. *)
Record Collaborators : Type := MkCollaborators {
  code128_Encode : string -> Barcode + lib_error;
  qr_Encode : string -> Barcode + lib_error;
  barcode_Scale : Barcode -> Z -> Z -> Barcode + lib_error;
  MeasureString_Ceil : float64 -> float64 -> string -> Z;
  Metrics_Height_Ceil : float64 -> float64 -> Z;
  png_Encode : RGBA -> string + lib_error;
  base64_EncodeToString : string -> string;
  zplgfa_ConvertToZPL : RGBA -> string
}.

(* ------------------------------------------------------------------ *)
(** ** The package, over its collaborators *)

Section Package.

Variable C : Collaborators.

(** *** dimensions.go *)

Definition labelMarginPixels : Z := 10.

Definition mmToPixels (mm : float64) (dpi : Z) : Z :=
  F64.to_int (F64.div (F64.mul mm (F64.of_int dpi)) F64.c25_4).

Definition calculateCode128Size (labelWidth labelHeight : Z) : Point :=
  let barcodeWidth := Int.sub labelWidth (labelMarginPixels * 2) in
  let barcodeHeight :=
    F64.to_int (F64.Min (F64.of_int (Int.quo labelHeight 2)) (F64.of_int 200)) in
  Pt barcodeWidth barcodeHeight.

(** *** fonts.go *)

Definition getBaseFontSize (size : TextSize) : float64 :=
  if String.eqb size TextSizeSmall then F64.c8_0
  else if String.eqb size TextSizeMedium then F64.c10_0
  else if String.eqb size TextSizeLarge then F64.c12_0
  else F64.c10_0.

(** The clamped scale factor of [scaleFontByLabelWidth]. *)
Definition scaleFactorFor (labelWidth : Z) : float64 :=
  let scaleFactor :=
    F64.add F64.c1_0
      (F64.div (F64.of_int (Int.sub labelWidth 200)) (F64.of_int 1000)) in
  if F64.ltb F64.c2_0 scaleFactor then F64.c2_0
  else if F64.ltb scaleFactor F64.c1_1 then F64.c1_1
  else scaleFactor.

Definition scaleFontByLabelWidth (fontSize : float64) (labelWidth : Z) : float64 :=
  F64.mul fontSize (scaleFactorFor labelWidth).

(** The embedded Go Regular font always parses, so the error branches
    of [truetype.Parse] are never taken and are left out. *)
Definition calculateFontHeight (fontSize : float64) (dpi : Z) : float64 :=
  F64.of_int (Metrics_Height_Ceil C fontSize (F64.of_int dpi)).

Definition getFontSize (size : TextSize) (dpi labelWidth : Z) : float64 * float64 :=
  let baseFontSize := getBaseFontSize size in
  let scaledFontSize := scaleFontByLabelWidth baseFontSize labelWidth in
  let fontHeight := calculateFontHeight scaledFontSize dpi in
  (scaledFontSize, fontHeight).

Definition drawText (img : RGBA) (text : string) (centerX baseY : Z)
    (fontSize fontHeight dpi : float64) (position : TextPosition)
    (col : Color) : RGBA :=
  let textWidth := MeasureString_Ceil C fontSize dpi text in
  let adjustedX := Int.sub centerX (Int.quo textWidth 2) in
  let margin := Int.quo (F64.to_int fontHeight) 2 in
  let adjustedY :=
    if String.eqb position TextPositionAbove then Int.sub baseY margin
    else if String.eqb position TextPositionBelow
         then Int.add (Int.add baseY (Int.mul margin 2)) 5
    else baseY in
  paint img (DrawString text (Pt adjustedX adjustedY) fontSize dpi col).

(** The recursion of the source has no measure that decreases, so the
    embedding counts the calls: [None] says the budget of calls ran out
    before a size fitted. *)
Fixpoint addTextLineRecursive (fuel : nat) (img : RGBA) (text : string)
    (centerX baseY : Z) (fontSize fontHeight dpi : float64)
    (position : TextPosition) : option RGBA :=
  match fuel with
  | O => None
  | S fuel' =>
      let textWidth := MeasureString_Ceil C fontSize dpi text in
      let maxWidth := Int.sub (Dx (Bounds img)) (labelMarginPixels * 2) in
      if maxWidth <? textWidth then
        let newFontHeight :=
          calculateFontHeight (F64.sub fontSize F64.c0_1) (F64.to_int dpi) in
        addTextLineRecursive fuel' img text centerX baseY
          (F64.sub fontSize F64.c0_1) newFontHeight dpi position
      else
        Some (drawText img text centerX baseY fontSize fontHeight dpi position Black)
  end.

Definition addTextLine (fuel : nat) (img : RGBA) (text : string)
    (centerX baseY : Z) (size : TextSize) (dpi : float64)
    (position : TextPosition) : option RGBA :=
  let '(fontSize, fontHeight) :=
    getFontSize size (F64.to_int dpi) (Dx (Bounds img)) in
  addTextLineRecursive fuel img text centerX baseY fontSize fontHeight dpi position.

(** *** dimensions.go, continued *)

Definition calculateTextHeight (input : BarcodeInput) : float64 :=
  fold_left
    (fun totalHeight textLine =>
       let height := snd (getFontSize (Size textLine) (Dpi input) 200) in
       F64.add totalHeight (F64.mul height F64.c2_0))
    (TextLines input) F64.c0_0.

Definition calculateQRSize (input : BarcodeInput) (labelWidth labelHeight : Z) : Point :=
  let maxSize :=
    F64.to_int (F64.Min (F64.of_int labelWidth) (F64.of_int labelHeight)) in
  let textHeight := calculateTextHeight input in
  let availableHeight := F64.sub (F64.of_int labelHeight) textHeight in
  let finalSize := F64.to_int (F64.Min (F64.of_int maxSize) availableHeight) in
  Pt finalSize finalSize.

Definition calculateBarcodeSize (input : BarcodeInput) (labelWidth labelHeight : Z) : Point :=
  if String.eqb (BarcodeType_ input) BarcodeTypeCode128
  then calculateCode128Size labelWidth labelHeight
  else calculateQRSize input labelWidth labelHeight.

Definition scaleBarcodeToFit (bc : Barcode) (size : Point) : result Barcode :=
  match barcode_Scale C bc (X size) (Y size) with
  | inl scaled => Ok scaled
  | inr err => Err (ErrScale err)
  end.

Definition centerBarcodeOnLabel (img : RGBA) (bc : Barcode) : Rectangle :=
  let imgBounds := Bounds img in
  let bcBounds_ := bcBounds bc in
  let offsetX := Int.quo (Int.sub (Dx imgBounds) (Dx bcBounds_)) 2 in
  let offsetY := Int.quo (Int.sub (Dy imgBounds) (Dy bcBounds_)) 2 in
  Rectangle_Add bcBounds_ (Pt offsetX offsetY).

Definition calculateTextYPosition (barcodeRect : Rectangle) (position : TextPosition) : Z :=
  if String.eqb position TextPositionAbove then Y (Min barcodeRect)
  else Y (Max barcodeRect).

(** *** rendering.go *)

(** [createBlankLabel] panics where [image.NewRGBA] does, on bounds that
    are negative after wrap-around or too large;
    [createBlankLabel_panics] says when, and [createBlankLabel] is the
    label it returns when it does not. *)
Definition createBlankLabel_panics (width height : Z) : bool :=
  NewRGBA_panics (image_Rect 0 0 width height).

Definition createBlankLabel (width height : Z) : RGBA :=
  let bounds := image_Rect 0 0 width height in
  paint (MkRGBA bounds []) (FillUniform bounds White).

Definition drawBarcodeOnLabel (label : RGBA) (bc : Barcode) (position : Rectangle) : RGBA :=
  paint label (DrawOver position bc (Min (bcBounds bc))).

(** *** formatting.go *)

Definition imageToBase64 (img : RGBA) : string + lib_error :=
  match png_Encode C img with
  | inl buf => inl (base64_EncodeToString C buf)
  | inr err => inr err
  end.

Definition imageToZPL (img : RGBA) : string := zplgfa_ConvertToZPL C img.

(** *** barcode.go *)

Definition standardDPIValues : list Z := [203; 300; 600].

Definition validateDPI (dpi : Z) : option error :=
  if existsb (Z.eqb dpi) standardDPIValues then None
  else Some (ErrInvalidDpi dpi).

Definition validateBarcodeType (barcodeType : BarcodeType) : option error :=
  if String.eqb barcodeType BarcodeTypeCode128
     || String.eqb barcodeType BarcodeTypeQR
  then None
  else Some (ErrInvalidBarcodeType barcodeType).

Definition validateInput (input : BarcodeInput) : option error :=
  match validateDPI (Dpi input) with
  | Some err => Some err
  | None => validateBarcodeType (BarcodeType_ input)
  end.

Definition encodeCode128 (data : string) : result Barcode :=
  match code128_Encode C data with
  | inl bc => Ok bc
  | inr err => Err (ErrEncodeCode128 err)
  end.

Definition encodeQRCode (data : string) : result Barcode :=
  match qr_Encode C data with
  | inl bc => Ok bc
  | inr err => Err (ErrEncodeQR err)
  end.

Definition encodeBarcode (input : BarcodeInput) : result Barcode :=
  if String.eqb (BarcodeType_ input) BarcodeTypeCode128
  then encodeCode128 (BarcodeData input)
  else if String.eqb (BarcodeType_ input) BarcodeTypeQR
  then encodeQRCode (BarcodeData input)
  else Err (ErrUnsupportedBarcodeType (BarcodeType_ input)).

Definition renderLabel (input : BarcodeInput) (bc : Barcode) : result (RGBA * Rectangle) :=
  let labelWidth := mmToPixels (Width input) (Dpi input) in
  let labelHeight := mmToPixels (Height input) (Dpi input) in
  let barcodeSize := calculateBarcodeSize input labelWidth labelHeight in
  match scaleBarcodeToFit bc barcodeSize with
  | Err err => Err err
  | Panic reason => Panic reason
  | Ok scaledBc =>
      if createBlankLabel_panics labelWidth labelHeight
      then Panic "image: NewRGBA Rectangle has huge or negative dimensions"
      else
        let img := createBlankLabel labelWidth labelHeight in
        let barcodeRect := centerBarcodeOnLabel img scaledBc in
        Ok (drawBarcodeOnLabel img scaledBc barcodeRect, barcodeRect)
  end.

(** The loop over the text lines.  The source hands the [int] resolution
    of the request to the [float64] parameter of [addTextLine]; the
    embedding writes the conversion out. *)
Fixpoint renderTextLines_loop (fuel : nat) (img : RGBA) (dpi : Z)
    (barcodeRect : Rectangle) (lines : list TextLine) : option RGBA :=
  match lines with
  | [] => Some img
  | textLine :: rest =>
      let textY := calculateTextYPosition barcodeRect (Position textLine) in
      match addTextLine fuel img (Text textLine) (Int.quo (Dx (Bounds img)) 2)
              textY (Size textLine) (F64.of_int dpi) (Position textLine) with
      | None => None
      | Some img' => renderTextLines_loop fuel img' dpi barcodeRect rest
      end
  end.

(** The source returns [nil] after the loop and has no other return:
    the second component is that error value. *)
Definition renderTextLines (fuel : nat) (img : RGBA) (input : BarcodeInput)
    (barcodeRect : Rectangle) : option (RGBA * option error) :=
  match renderTextLines_loop fuel img (Dpi input) barcodeRect (TextLines input) with
  | None => None
  | Some img' => Some (img', None)
  end.

Definition generateOutputFormats (img : RGBA) : result BarcodeOutput :=
  match imageToBase64 img with
  | inr err => Err (ErrImageToBase64 err)
  | inl base64Image => Ok (MkBarcodeOutput base64Image (imageToZPL img))
  end.

(** [None]: the call budget of a text line ran out, the pipeline has not
    returned.  A panic of [createBlankLabel] goes through [renderLabel]
    and [GenerateBarcode], which do not recover. *)
Definition GenerateBarcode (fuel : nat) (input : BarcodeInput) : option (result BarcodeOutput) :=
  match validateInput input with
  | Some err => Some (Err err)
  | None =>
      match encodeBarcode input with
      | Err err => Some (Err err)
      | Panic reason => Some (Panic reason)
      | Ok bc =>
          match renderLabel input bc with
          | Err err => Some (Err err)
          | Panic reason => Some (Panic reason)
          | Ok (labelImg, barcodeRect) =>
              match renderTextLines fuel labelImg input barcodeRect with
              | None => None
              | Some (_, Some err) => Some (Err err)
              | Some (labelImg', None) => Some (generateOutputFormats labelImg')
              end
          end
      end
  end.

(** *** The shrink loop on its own

    What [addTextLineRecursive] does before it draws: the sizes it
    tries, and the size and line height it settles on. *)

Definition maxTextWidth (img : RGBA) : Z :=
  Int.sub (Dx (Bounds img)) (labelMarginPixels * 2).

Definition tooWide (maxWidth : Z) (text : string) (dpi fontSize : float64) : bool :=
  maxWidth <? MeasureString_Ceil C fontSize dpi text.

(** The size after [k] decrements of 0.1 point. *)
Fixpoint shrunk (fontSize : float64) (k : nat) : float64 :=
  match k with
  | O => fontSize
  | S k' => shrunk (F64.sub fontSize F64.c0_1) k'
  end.

Fixpoint shrink (fuel : nat) (maxWidth : Z) (text : string)
    (dpi fontSize fontHeight : float64) : option (float64 * float64) :=
  match fuel with
  | O => None
  | S fuel' =>
      if tooWide maxWidth text dpi fontSize then
        shrink fuel' maxWidth text dpi (F64.sub fontSize F64.c0_1)
          (calculateFontHeight (F64.sub fontSize F64.c0_1) (F64.to_int dpi))
      else Some (fontSize, fontHeight)
  end.

(** The line height that goes with the size after [k] decrements: the
    one handed in for the first size, recomputed after a decrement. *)
Definition heightAfter (dpi fontSize fontHeight : float64) (k : nat) : float64 :=
  match k with
  | O => fontHeight
  | S _ => calculateFontHeight (shrunk fontSize k) (F64.to_int dpi)
  end.

(** The size and line height a text line of a label is fitted to. *)
Definition fitted (fuel : nat) (img : RGBA) (dpi : Z) (textLine : TextLine)
    : option (float64 * float64) :=
  let '(fontSize, fontHeight) :=
    getFontSize (Size textLine) (F64.to_int (F64.of_int dpi)) (Dx (Bounds img)) in
  shrink fuel (maxTextWidth img) (Text textLine) (F64.of_int dpi) fontSize fontHeight.

(** The line height, in whole pixels, at the size a text line starts
    from on a label 200 pixels wide, and the text height reserved from
    these. *)
Definition baselineLineHeight (dpi : Z) (textLine : TextLine) : Z :=
  Metrics_Height_Ceil C (F64.mul (getBaseFontSize (Size textLine)) F64.c1_1)
    (F64.of_int dpi).

Definition reservedFor (dpi : Z) (lines : list TextLine) : Z :=
  fold_right (fun textLine acc => 2 * baselineLineHeight dpi textLine + acc) 0 lines.

Definition reservedPixels (input : BarcodeInput) : Z :=
  reservedFor (Dpi input) (TextLines input).

End Package.

(** The last paint operation of a label. *)
Definition lastOp (img : RGBA) : option DrawOp := last (map Some (Ops img)) None.

(** The paint operation [drawText] ends in, and the one a text line of a
    request is drawn with once it is fitted to a size and line height:
    centred on the label, anchored to the symbol rectangle. *)
Definition drawTextOp (C : Collaborators) (text : string) (centerX baseY : Z)
    (fontSize fontHeight dpi : float64) (position : TextPosition)
    (col : Color) : DrawOp :=
  let textWidth := MeasureString_Ceil C fontSize dpi text in
  let adjustedX := Int.sub centerX (Int.quo textWidth 2) in
  let margin := Int.quo (F64.to_int fontHeight) 2 in
  let adjustedY :=
    if String.eqb position TextPositionAbove then Int.sub baseY margin
    else if String.eqb position TextPositionBelow
         then Int.add (Int.add baseY (Int.mul margin 2)) 5
    else baseY in
  DrawString text (Pt adjustedX adjustedY) fontSize dpi col.

Definition lineOp (C : Collaborators) (bounds barcodeRect : Rectangle) (dpi : Z)
    (textLine : TextLine) (fit : float64 * float64) : DrawOp :=
  drawTextOp C (Text textLine) (Int.quo (Dx bounds) 2)
    (calculateTextYPosition barcodeRect (Position textLine))
    (fst fit) (snd fit) (F64.of_int dpi) (Position textLine) Black.

(** Two text lines that differ in nothing but the name of a size class
    with the same base size. *)
Definition sameLine (l l' : TextLine) : Prop :=
  Text l = Text l' /\ Position l = Position l'
  /\ getBaseFontSize (Size l) = getBaseFontSize (Size l').

(* ------------------------------------------------------------------ *)
(** ** A stand-in set of collaborators

    Concrete collaborators to run the package on: a monospace rasterizer
    with the shape of a scalable font (the face scale is the point size
    times the resolution over 72, in 64ths of a pixel, a non-positive
    size or resolution falling back to 12 points and 72 dpi; the line
    height is the scale and every glyph advances by half of it), an
    encoder that always succeeds, a scaler that refuses a width below
    the width of the unscaled symbol (and, for a square symbol, a height
    below its height), and an exporter that refuses an empty image. *)

Module Sample.

Definition c0_5 : float64 := S754_finite false 4503599627370496 (-53).

Definition orDefault (x : float64) (d : Z) : float64 :=
  if F64.ltb F64.c0_0 x then x else F64.of_int d.

Definition faceScale (size dpi : float64) : Z :=
  F64.to_int
    (F64.add c0_5
       (F64.div (F64.mul (F64.mul (orDefault size 12) (orDefault dpi 72))
                         (F64.of_int 64))
                (F64.of_int 72))).

Definition ceil26_6 (x : Z) : Z := Z.shiftr (x + 63) 6.

Definition measure (size dpi : float64) (text : string) : Z :=
  ceil26_6 (Z.of_nat (String.length text) * (faceScale size dpi / 2)).

Definition lineHeight (size dpi : float64) : Z := ceil26_6 (faceScale size dpi).

Definition encode1D (data : string) : Barcode + lib_error :=
  inl (MkBarcode data 1
         (image_Rect 0 0 (11 * Z.of_nat (String.length data) + 35) 1)).

Definition encode2D (data : string) : Barcode + lib_error :=
  inl (MkBarcode data 2 (image_Rect 0 0 21 21)).

Definition scale (bc : Barcode) (width height : Z) : Barcode + lib_error :=
  if (width <? Dx (bcBounds bc))
     || ((bcDimensions bc =? 2) && (height <? Dy (bcBounds bc)))
  then inr "can not scale barcode to an image smaller than the symbol"%string
  else inl (MkBarcode (bcContent bc) (bcDimensions bc)
              (image_Rect 0 0 width height)).

Definition png (img : RGBA) : string + lib_error :=
  if (Dx (Bounds img) <=? 0) || (Dy (Bounds img) <=? 0)
  then inr "png: invalid format: invalid image size"%string
  else inl "PNG"%string.

Definition collaborators : Collaborators :=
  MkCollaborators encode1D encode2D scale measure lineHeight png
    (fun s => s) (fun _ => "^XA^XZ"%string).

(** A text of [n] copies of a letter. *)
Fixpoint letters (n : nat) : string :=
  match n with
  | O => EmptyString
  | S n' => String "A"%char (letters n')
  end.

End Sample.

(* ------------------------------------------------------------------ *)
(** ** Requests to run the package on *)

Module Examples.

Definition mm (tenths : Z) : float64 := F64.div (F64.of_int tenths) (F64.of_int 10).

(** The Code128 label of the test suite, 50 mm by 30 mm at 300 dpi,
    with a text line of 4000 letters. *)
Definition overlongLine : TextLine :=
  MkTextLine (Sample.letters 4000) TextPositionAbove TextSizeLarge.

Definition overlong : BarcodeInput :=
  MkBarcodeInput "1234567890" BarcodeTypeCode128 (mm 500) (mm 300) 300
    [overlongLine].

(** The size that line starts from, on the 590 pixels of that label. *)
Definition overlongInitial : float64 := F64.mul F64.c12_0 (scaleFactorFor 590).

(** A one-inch label at 203 dpi with a line of 240 letters. *)
Definition crampedLine : TextLine :=
  MkTextLine (Sample.letters 240) TextPositionBelow TextSizeMedium.

Definition cramped : BarcodeInput :=
  MkBarcodeInput "1234567890" BarcodeTypeCode128 (mm 254) (mm 254) 203
    [crampedLine].

(** A Code128 label 50 mm wide and a tenth of a millimetre high. *)
Definition flat : BarcodeInput :=
  MkBarcodeInput "1234567890" BarcodeTypeCode128 (mm 500) (mm 1) 300 [].

(** A text line below a symbol whose rectangle ends at y = 300, on a
    label 600 pixels wide. *)
Definition belowLine : TextLine :=
  MkTextLine "LOC-A1-B2-C3" TextPositionBelow TextSizeMedium.

Definition symbolRect : Rectangle := MkRect (Pt 15 100) (Pt 585 300).

(** That label with the line drawn at 14 points, 59 pixels high. *)
Definition belowDrawn : RGBA :=
  drawText Sample.collaborators (createBlankLabel 600 400) (Text belowLine) 300
    (calculateTextYPosition symbolRect (Position belowLine))
    (S754_finite false 7881299347898368 (-49)) (F64.of_int 59)
    (F64.of_int 300) (Position belowLine) Black.

(** The same line with a position the package has no name for. *)
Definition middleLine : TextLine :=
  MkTextLine "LOC-A1-B2-C3" "MIDDLE"%string TextSizeMedium.

(** A Code128 label whose width is not a number. *)
Definition unsized : BarcodeInput :=
  MkBarcodeInput "1234567890" BarcodeTypeCode128 S754_nan (mm 300) 300 [].

(** A two-inch QR label at 300 dpi with one text line. *)
Definition wideLine : TextLine :=
  MkTextLine "Product: 12345" TextPositionBelow TextSizeMedium.

Definition wide : BarcodeInput :=
  MkBarcodeInput "https://example.com/product/12345" BarcodeTypeQR (mm 508) (mm 508)
    300 [wideLine].


(** A line of 60 letters, to fit on labels 322 and 323 pixels wide. *)
Definition sixty : TextLine :=
  MkTextLine (Sample.letters 60) TextPositionBelow TextSizeMedium.

End Examples.

(* ------------------------------------------------------------------ *)
(** * Properties *)

(** ** Integers in range do not wrap *)

Module IntFacts.

Lemma wrap_id (z : Z) : Int.in_range z -> Int.wrap z = z.
Proof.
  unfold Int.in_range, Int.wrap, Int.min_int, Int.max_int. intros H.
  rewrite Z.mod_small; lia.
Qed.

Lemma add_id (a b : Z) : Int.in_range (a + b) -> Int.add a b = a + b.
Proof. apply wrap_id. Qed.

Lemma sub_id (a b : Z) : Int.in_range (a - b) -> Int.sub a b = a - b.
Proof. apply wrap_id. Qed.

Lemma mul_id (a b : Z) : Int.in_range (a * b) -> Int.mul a b = a * b.
Proof. apply wrap_id. Qed.

Lemma quo_id (a b : Z) : Int.in_range (Z.quot a b) -> Int.quo a b = Z.quot a b.
Proof. apply wrap_id. Qed.

End IntFacts.

(** ** Doubles that are integers

    The rounding of [SpecFloat] is exact on the integers that have a
    double, and the operations of the package on such doubles are the
    integer operations.  The lemmas are about [binary_round_aux], through
    which every operation rounds. *)

Module F64Facts.

(** [iter_pos] is iteration a number of times. *)
Lemma iter_pos_nat {A} (f : A -> A) (p : positive) :
  forall x, iter_pos f p x = Nat.iter (Pos.to_nat p) f x.
Proof.
  induction p as [p IH | p IH |]; intros x; cbn [iter_pos].
  - rewrite !IH, Pos2Nat.inj_xI, <- Nat.iter_add.
    replace (S (2 * Pos.to_nat p)) with (S (Pos.to_nat p + Pos.to_nat p)) by lia.
    symmetry. apply Nat.iter_succ_r.
  - rewrite !IH, Pos2Nat.inj_xO, <- Nat.iter_add.
    f_equal. lia.
  - reflexivity.
Qed.

Lemma shr_1_m (r : shr_record) : 0 <= shr_m r -> shr_m (shr_1 r) = shr_m r / 2.
Proof.
  destruct r as [m r s]. cbn [shr_m]. intros H.
  destruct m as [| [p | p |] | p]; cbn [shr_1 shr_m]; try lia.
  - reflexivity.
  - apply Z.div_unique with (r := 1); lia.
  - apply Z.div_unique with (r := 0); lia.
  - reflexivity.
Qed.

Lemma shr_iter_m (n : nat) : forall r, 0 <= shr_m r ->
  shr_m (Nat.iter n shr_1 r) = shr_m r / 2 ^ Z.of_nat n.
Proof.
  induction n as [| n IH]; intros r H.
  - simpl. now rewrite Z.div_1_r.
  - rewrite Nat.iter_succ_r, IH.
    + rewrite shr_1_m by assumption. rewrite Nat2Z.inj_succ, Z.pow_succ_r by lia.
      rewrite Z.div_div by lia. reflexivity.
    + rewrite shr_1_m by assumption. apply Z.div_pos; lia.
Qed.

Lemma shr_1_exact (m : Z) : 0 <= m -> m mod 2 = 0 ->
  shr_1 (Build_shr_record m false false) = Build_shr_record (m / 2) false false.
Proof.
  intros H0 H. destruct m as [| [p | p |] | p]; cbn [shr_1 orb]; try lia.
  - reflexivity.
  - exfalso. rewrite Pos2Z.inj_xI, Z.add_comm, Z.mul_comm, Z.mod_add in H by lia.
    discriminate.
  - f_equal. apply Z.div_unique with (r := 0); lia.
  - discriminate.
Qed.

(** Shifting out low bits that are all zero is exact: the round and
    sticky bits stay clear. *)
Lemma shr_iter_exact (n : nat) : forall m, 0 <= m -> m mod 2 ^ Z.of_nat n = 0 ->
  Nat.iter n shr_1 (Build_shr_record m false false)
  = Build_shr_record (m / 2 ^ Z.of_nat n) false false.
Proof.
  induction n as [| n IH]; intros m H0 H.
  - simpl. now rewrite Z.div_1_r.
  - rewrite Nat2Z.inj_succ, Z.pow_succ_r in * by lia.
    assert (Hm : m mod 2 = 0).
    { apply Z.mod_divide in H; [| lia]. apply Z.mod_divide; [lia |].
      destruct H as [q Hq]. exists (q * 2 ^ Z.of_nat n). lia. }
    rewrite Nat.iter_succ_r, shr_1_exact by assumption.
    rewrite IH.
    + rewrite Z.div_div by lia. reflexivity.
    + apply Z.div_pos; lia.
    + apply Z.mod_divide in H; [| lia]. apply Z.mod_divide; [lia |].
      destruct H as [q Hq]. exists q. subst m.
      replace (q * (2 * 2 ^ Z.of_nat n)) with (q * 2 ^ Z.of_nat n * 2) by lia.
      now rewrite Z.div_mul by lia.
Qed.

Lemma digits2_log2 (m : positive) : Zpos (digits2_pos m) = Z.log2 (Zpos m) + 1.
Proof.
  induction m as [m IH | m IH |]; simpl digits2_pos.
  - rewrite Pos2Z.inj_succ, IH. 
    change (Z.pos m~1) with (2 * Z.pos m + 1). rewrite Z.log2_succ_double by lia. lia.
  - rewrite Pos2Z.inj_succ, IH.
    change (Z.pos m~0) with (2 * Z.pos m). rewrite Z.log2_double by lia. lia.
  - reflexivity.
Qed.

Lemma digits2_bounds (m : positive) :
  2 ^ (Zpos (digits2_pos m) - 1) <= Zpos m < 2 ^ Zpos (digits2_pos m).
Proof.
  rewrite digits2_log2. replace (Z.log2 (Z.pos m) + 1 - 1) with (Z.log2 (Z.pos m)) by lia.
  replace (Z.log2 (Z.pos m) + 1) with (Z.succ (Z.log2 (Z.pos m))) by lia.
  apply Z.log2_spec. lia.
Qed.

Lemma digits2_unique (m : positive) (d : Z) :
  2 ^ (d - 1) <= Zpos m < 2 ^ d -> Zpos (digits2_pos m) = d.
Proof.
  intros H. rewrite digits2_log2.
  assert (0 < d).
  { destruct (Z.le_gt_cases d 0) as [Hd |]; [| assumption].
    assert (2 ^ d <= 2 ^ 0) by (apply Z.pow_le_mono_r; lia). simpl in *. lia. }
  rewrite (Z.log2_unique (Zpos m) (d - 1)); [lia | lia |].
  replace (Z.succ (d - 1)) with d by lia. assumption.
Qed.

(** A mantissa of 53 bits or more whose bits below the leading 53 are zero
    is rounded to those 53 bits, with nothing lost. *)
Lemma BRA_exact (s : bool) (M : positive) (E : Z) :
  let k := Zpos (digits2_pos M) - 53 in
  0 <= k -> Zpos M mod 2 ^ k = 0 -> -1074 <= E + k <= 971 ->
  binary_round_aux 53 1024 s (Zpos M) E loc_Exact = F64.fin s (Zpos M / 2 ^ k) (E + k).
Proof.
  intros k Hk Hmod HE.
  pose proof (digits2_bounds M) as HD.
  assert (Hq : 2 ^ 52 <= Zpos M / 2 ^ k < 2 ^ 53).
  { apply Z.mod_divide in Hmod; [| apply Z.pow_nonzero; lia].
    destruct Hmod as [q Hq]. rewrite Hq, Z.div_mul by (apply Z.pow_nonzero; lia).
    replace (Zpos (digits2_pos M)) with (53 + k) in HD by lia.
    replace (53 + k - 1) with (52 + k) in HD by lia.
    rewrite !Z.pow_add_r in HD by lia. rewrite Hq in HD.
    assert (0 < 2 ^ k) by (apply Z.pow_pos_nonneg; lia). nia. }
  unfold binary_round_aux, shr_fexp.
  cbn [Zdigits2 shr_record_of_loc]. unfold fexp, emin.
  replace (Z.max (Z.pos (digits2_pos M) + E - 53) (3 - 1024 - 53) - E) with k by lia.
  assert (Hshr : shr (Build_shr_record (Zpos M) false false) E k
                 = (Build_shr_record (Zpos M / 2 ^ k) false false, E + k)).
  { unfold shr. destruct k as [| p | p] eqn:Ek; try lia.
    - rewrite Z.pow_0_r, Z.div_1_r, Z.add_0_r. reflexivity.
    - rewrite iter_pos_nat, shr_iter_exact; rewrite ?positive_nat_Z; try lia; auto. }
  rewrite Hshr. cbn [shr_m loc_of_shr_record round_nearest_even].
  destruct (Zpos M / 2 ^ k) as [| q | q] eqn:Eq; try lia.
  cbn [Zdigits2]. rewrite (digits2_unique q 53) by (simpl; lia).
  replace (Z.max (53 + (E + k) - 53) (3 - 1024 - 53) - (E + k)) with 0 by lia.
  cbn [shr shr_m F64.fin]. 
  destruct (Z.leb_spec (E + k) (1024 - 53)); [reflexivity | lia].
Qed.

Lemma iter_xO_shift (d m : positive) : Zpos (Pos.iter xO m d) = Zpos m * 2 ^ Zpos d.
Proof.
  revert m. induction d as [d IH | d IH |]; intros m; cbn [Pos.iter].
  - rewrite Pos2Z.inj_xO, !IH, Pos2Z.inj_xI.
    replace (2 * Z.pos d + 1) with (Z.pos d + Z.pos d + 1) by lia.
    rewrite !Z.pow_add_r, Z.pow_1_r by lia. ring.
  - rewrite !IH. replace (Z.pos d~0) with (Z.pos d + Z.pos d) by lia.
    rewrite Z.pow_add_r by lia. ring.
  - rewrite Z.pow_1_r. lia.
Qed.

(** The same for [binary_round], which first pads a short mantissa to 53
    bits. *)
Lemma BR_exact (s : bool) (M : positive) (E : Z) :
  let d := Zpos (digits2_pos M) in
  Zpos M mod 2 ^ Z.max 0 (d - 53) = 0 -> -1074 <= E + d - 53 <= 971 ->
  binary_round 53 1024 s M E
  = F64.fin s (if d <=? 53 then Zpos M * 2 ^ (53 - d) else Zpos M / 2 ^ (d - 53)) (E + d - 53).
Proof.
  intros d Hmod HE. unfold binary_round, shl_align, fexp, emin. fold d.
  replace (Z.max (d + E - 53) (3 - 1024 - 53) - E) with (d - 53) by lia.
  destruct (d - 53) as [| p | p] eqn:Ek.
  - rewrite BRA_exact; fold d; rewrite ?Ek, ?Z.pow_0_r, ?Z.div_1_r; try lia.
    + destruct (Z.leb_spec d 53); [| lia].
      replace (53 - d) with 0 by lia. rewrite Z.pow_0_r, Z.mul_1_r.
      f_equal; lia.
    + apply Z.mod_1_r.
  - rewrite BRA_exact; fold d; rewrite ?Ek; try lia.
    + destruct (Z.leb_spec d 53); [lia |]. f_equal; lia.
    + rewrite Z.max_r in Hmod by lia. exact Hmod.
  - pose proof (digits2_bounds M) as HD. fold d in HD.
    assert (Hd : Zpos (digits2_pos (Pos.iter xO M p)) = 53).
    { apply digits2_unique. rewrite iter_xO_shift.
      replace 53 with (d + Zpos p) at 2 by lia.
      replace (53 - 1) with (d - 1 + Zpos p) by lia.
      rewrite !Z.pow_add_r by lia.
      assert (0 < 2 ^ Zpos p) by (apply Z.pow_pos_nonneg; lia). nia. }
    rewrite BRA_exact; rewrite ?Hd; try lia.
    + change (53 - 53) with 0. rewrite Z.pow_0_r, Z.div_1_r, iter_xO_shift.
      destruct (Z.leb_spec d 53); [| lia].
      replace (53 - d) with (Zpos p) by lia. f_equal; lia.
    + apply Z.mod_1_r.
Qed.

Lemma log2_le_63 (a : Z) : a <= 2 ^ 63 -> Z.log2 a <= 63.
Proof.
  intros H. apply Z.log2_le_mono in H. exact H.
Qed.

(** The conversion [float64(n)] of an integer that has a double is that
    double. *)
Lemma of_int_exact (n : Z) :
  F64.exact_int n -> Z.abs n <= 2 ^ 63 -> F64.of_int n = F64.canonZ n.
Proof.
  unfold F64.exact_int, F64.of_int, F64.canonZ, binary_normalize, F64.prec, F64.emax.
  intros Hex Hb. pose proof (log2_le_63 _ Hb) as Hl.
  pose proof (Z.log2_nonneg (Z.abs n)) as Hl0.
  destruct n as [| p | p]; cbn [Z.abs] in *.
  - reflexivity.
  - rewrite BR_exact; rewrite digits2_log2.
    + reflexivity.
    + replace (Z.log2 (Z.pos p) + 1 - 53) with (Z.log2 (Z.pos p) - 52) by lia. exact Hex.
    + lia.
  - rewrite BR_exact; rewrite digits2_log2.
    + reflexivity.
    + replace (Z.log2 (Z.pos p) + 1 - 53) with (Z.log2 (Z.pos p) - 52) by lia. exact Hex.
    + lia.
Qed.

(** The shape of [canonZ n]: a mantissa of exactly 53 bits and the exponent
    that makes its value [n]. *)
Lemma canonZ_cases (n : Z) : F64.exact_int n -> n <> 0 ->
  exists m e, F64.canonZ n = S754_finite (n <? 0) m e
    /\ e = Z.log2 (Z.abs n) - 52
    /\ 2 ^ 52 <= Zpos m < 2 ^ 53
    /\ (e <= 0 -> Zpos m = Z.abs n * 2 ^ (- e))
    /\ (0 <= e -> Z.abs n = Zpos m * 2 ^ e).
Proof.
  intros Hex Hn. unfold F64.canonZ, F64.exact_int in *.
  set (a := Z.abs n) in *. assert (Ha : 0 < a) by (unfold a; lia).
  pose proof (Z.log2_spec a Ha) as Hs. pose proof (Z.log2_nonneg a) as Hl0.
  set (l := Z.log2 a) in *.
  replace (Z.succ l) with (l + 1) in Hs by lia.
  destruct (Z.leb_spec (l + 1) 53) as [Hd | Hd].
  - assert (Hp : 0 < 2 ^ (53 - (l + 1))) by (apply Z.pow_pos_nonneg; lia).
    assert (Hb : 2 ^ 52 <= a * 2 ^ (53 - (l + 1)) < 2 ^ 53).
    { assert (E1 : 2 ^ 52 = 2 ^ l * 2 ^ (53 - (l + 1)))
        by (rewrite <- Z.pow_add_r by lia; f_equal; lia).
      assert (E2 : 2 ^ 53 = 2 ^ (l + 1) * 2 ^ (53 - (l + 1)))
        by (rewrite <- Z.pow_add_r by lia; f_equal; lia).
      rewrite E1, E2. nia. }
    destruct (a * 2 ^ (53 - (l + 1))) as [| m | m] eqn:Em; try lia.
    exists m, (l + 1 - 53). cbn [F64.fin]. repeat split; try lia.
    + intros _. rewrite <- Em. f_equal. f_equal. lia.
    + intros He. assert (l = 52) by lia.
      replace (l + 1 - 53) with 0 by lia.
      replace (53 - (l + 1)) with 0 in Em by lia. rewrite Z.pow_0_r in *. lia.
  - rewrite Z.max_r in Hex by lia.
    replace (l + 1 - 53) with (l - 52) by lia.
    assert (Hp : 0 < 2 ^ (l - 52)) by (apply Z.pow_pos_nonneg; lia).
    apply Z.mod_divide in Hex; [| lia]. destruct Hex as [q Hq].
    rewrite Hq, Z.div_mul by lia.
    assert (Hb : 2 ^ 52 <= q < 2 ^ 53).
    { assert (E1 : 2 ^ l = 2 ^ 52 * 2 ^ (l - 52))
        by (rewrite <- Z.pow_add_r by lia; f_equal; lia).
      assert (E2 : 2 ^ (l + 1) = 2 ^ 53 * 2 ^ (l - 52))
        by (rewrite <- Z.pow_add_r by lia; f_equal; lia).
      rewrite E1, E2 in Hs. nia. }
    destruct q as [| m | m]; try lia.
    exists m, (l - 52). cbn [F64.fin]. repeat split; try lia.
Qed.

Lemma trunc_mag_spec (m : positive) (e : Z) :
  F64.trunc_mag m e = if e <? 0 then Zpos m / 2 ^ (- e) else Zpos m * 2 ^ e.
Proof.
  unfold F64.trunc_mag. destruct e as [| p | p].
  - rewrite Z.shiftl_mul_pow2 by lia. reflexivity.
  - rewrite Z.shiftl_mul_pow2 by lia. reflexivity.
  - rewrite Z.shiftr_div_pow2 by lia. reflexivity.
Qed.

(** Converting back gives the integer. *)
Lemma to_int_canonZ (n : Z) :
  F64.exact_int n -> Int.in_range n -> F64.to_int (F64.canonZ n) = n.
Proof.
  intros Hex Hr. destruct (Z.eq_dec n 0) as [-> | Hn]; [reflexivity |].
  destruct (canonZ_cases n Hex Hn) as (m & e & -> & He & Hm & H1 & H2).
  unfold F64.to_int. rewrite trunc_mag_spec.
  assert (Ht : (if e <? 0 then Zpos m / 2 ^ (- e) else Zpos m * 2 ^ e) = Z.abs n).
  { destruct (Z.ltb_spec e 0).
    - rewrite H1 by lia. apply Z.div_mul. apply Z.pow_nonzero; lia.
    - symmetry. apply H2. lia. }
  rewrite Ht. unfold Int.in_range in Hr.
  destruct (Z.ltb_spec n 0).
  - replace (- Z.abs n) with n by lia.
    destruct (Z.leb_spec Int.min_int n); [| lia].
    destruct (Z.leb_spec n Int.max_int); [reflexivity | lia].
  - replace (Z.abs n) with n by lia.
    destruct (Z.leb_spec Int.min_int n); [| lia].
    destruct (Z.leb_spec n Int.max_int); [reflexivity | lia].
Qed.

Lemma log2_lt_of_lt (a b : Z) : 0 < a -> Z.log2 a < Z.log2 b -> a < b.
Proof.
  intros Ha Hl. assert (Hb : 0 < b).
  { destruct (Z.le_gt_cases b 0) as [Hb |]; [| assumption].
    rewrite (Z.log2_nonpos b Hb) in Hl. pose proof (Z.log2_nonneg a). lia. }
  pose proof (Z.log2_spec a Ha) as [_ H1]. pose proof (Z.log2_spec b Hb) as [H2 _].
  assert (2 ^ Z.succ (Z.log2 a) <= 2 ^ Z.log2 b) by (apply Z.pow_le_mono_r; lia).
  lia.
Qed.

Lemma mul_compare_r (a b p : Z) : 0 < p -> (a * p ?= b * p) = (a ?= b).
Proof.
  intros Hp. destruct (Z.compare_spec a b) as [-> | H | H].
  - apply Z.compare_refl.
  - apply Z.compare_lt_iff. now apply Z.mul_lt_mono_pos_r.
  - apply Z.compare_gt_iff. now apply Z.mul_lt_mono_pos_r.
Qed.

Lemma compare_canonZ_pos (a b : Z) :
  F64.exact_int a -> F64.exact_int b -> 0 < a -> 0 < b ->
  SFcompare (F64.canonZ a) (F64.canonZ b) = Some (a ?= b).
Proof.
  intros Ha Hb Pa Pb.
  destruct (canonZ_cases a Ha) as (ma & ea & -> & Ea & Ma & A1 & A2); [lia |].
  destruct (canonZ_cases b Hb) as (mb & eb & -> & Eb & Mb & B1 & B2); [lia |].
  destruct (Z.ltb_spec a 0); [lia |]. destruct (Z.ltb_spec b 0); [lia |].
  cbn [SFcompare]. rewrite Z.abs_eq in * by lia.
  destruct (Z.compare_spec ea eb) as [Heq | Hlt | Hgt].
  - f_equal. change (Pos.compare_cont Eq ma mb) with (Z.compare (Zpos ma) (Zpos mb)).
    clear Ea Eb. subst eb. destruct (Z.le_gt_cases ea 0).
    + rewrite A1, B1 by lia.
      assert (0 < 2 ^ (- ea)) by (apply Z.pow_pos_nonneg; lia).
      now apply mul_compare_r.
    + rewrite A2, B2 by lia.
      assert (0 < 2 ^ ea) by (apply Z.pow_pos_nonneg; lia).
      symmetry. now apply mul_compare_r.
  - f_equal. symmetry. apply Z.compare_lt_iff. apply log2_lt_of_lt; lia.
  - f_equal. symmetry. apply Z.compare_gt_iff. apply log2_lt_of_lt; lia.
Qed.

Lemma canonZ_0 : F64.canonZ 0 = S754_zero false.
Proof. reflexivity. Qed.

Lemma canonZ_opp (a : Z) : a <> 0 -> F64.canonZ (- a) = SFopp (F64.canonZ a).
Proof.
  intros Ha. unfold F64.canonZ. rewrite Z.abs_opp.
  replace (- a <? 0) with (negb (a <? 0))
    by (destruct (Z.ltb_spec a 0), (Z.ltb_spec (- a) 0); simpl; (reflexivity || lia)).
  match goal with |- F64.fin _ ?m _ = _ => destruct m eqn:Em end; cbn [F64.fin SFopp]; reflexivity.
Qed.

Lemma exact_int_opp (a : Z) : F64.exact_int a -> F64.exact_int (- a).
Proof. unfold F64.exact_int. now rewrite Z.abs_opp. Qed.

Lemma SFcompare_opp_fin (s1 s2 : bool) m1 e1 m2 e2 c :
  SFcompare (S754_finite false m1 e1) (S754_finite false m2 e2) = Some c ->
  SFcompare (S754_finite true m1 e1) (S754_finite true m2 e2) = Some (CompOpp c).
Proof.
  cbn [SFcompare]. intros H. injection H as <-.
  destruct (e1 ?= e2); reflexivity.
Qed.

(** Doubles of integers compare as the integers do. *)
Lemma compare_canonZ (a b : Z) :
  F64.exact_int a -> F64.exact_int b -> SFcompare (F64.canonZ a) (F64.canonZ b) = Some (a ?= b).
Proof.
  intros Ha Hb.
  destruct (Z.eq_dec a 0) as [-> | Na]; destruct (Z.eq_dec b 0) as [-> | Nb].
  - reflexivity.
  - destruct (canonZ_cases b Hb Nb) as (mb & eb & -> & _). rewrite canonZ_0.
    cbn [SFcompare]. destruct (Z.ltb_spec b 0); f_equal; symmetry.
    + apply Z.compare_gt_iff; lia.
    + apply Z.compare_lt_iff; lia.
  - destruct (canonZ_cases a Ha Na) as (ma & ea & -> & _). rewrite canonZ_0.
    cbn [SFcompare]. destruct (Z.ltb_spec a 0); f_equal; symmetry.
    + apply Z.compare_lt_iff; lia.
    + apply Z.compare_gt_iff; lia.
  - destruct (Z.ltb_spec a 0) as [La | La]; destruct (Z.ltb_spec b 0) as [Lb | Lb].
    + pose proof (compare_canonZ_pos (- a) (- b) (exact_int_opp a Ha) (exact_int_opp b Hb)
                    ltac:(lia) ltac:(lia)) as H.
      rewrite !canonZ_opp in H by assumption.
      destruct (canonZ_cases a Ha Na) as (ma & ea & Ea & _).
      destruct (canonZ_cases b Hb Nb) as (mb & eb & Eb & _).
      rewrite Ea, Eb in *.
      destruct (Z.ltb_spec a 0); [| lia]. destruct (Z.ltb_spec b 0); [| lia].
      cbn [SFopp negb] in H. apply (SFcompare_opp_fin true true) in H. rewrite H.
      f_equal. rewrite Z.compare_opp. symmetry. apply Z.compare_antisym.
    + destruct (canonZ_cases a Ha Na) as (ma & ea & -> & _).
      destruct (canonZ_cases b Hb Nb) as (mb & eb & -> & _).
      destruct (Z.ltb_spec a 0); [| lia]. destruct (Z.ltb_spec b 0); [lia |].
      cbn [SFcompare]. f_equal. symmetry. apply Z.compare_lt_iff; lia.
    + destruct (canonZ_cases a Ha Na) as (ma & ea & -> & _).
      destruct (canonZ_cases b Hb Nb) as (mb & eb & -> & _).
      destruct (Z.ltb_spec a 0); [lia |]. destruct (Z.ltb_spec b 0); [| lia].
      cbn [SFcompare]. f_equal. symmetry. apply Z.compare_gt_iff; lia.
    + apply compare_canonZ_pos; (assumption || lia).
Qed.

Lemma canonZ_not_special (a : Z) : F64.exact_int a ->
  F64.is_neg_inf (F64.canonZ a) = false /\ F64.is_nan (F64.canonZ a) = false
  /\ F64.signbit (F64.canonZ a) = (a <? 0).
Proof.
  intros Ha. destruct (Z.eq_dec a 0) as [-> | Na]; [now rewrite canonZ_0 |].
  destruct (canonZ_cases a Ha Na) as (ma & ea & -> & _). now cbn.
Qed.

(** [math.Min] on doubles of integers is the integer minimum. *)
Lemma Min_canonZ (a b : Z) :
  F64.exact_int a -> F64.exact_int b -> F64.Min (F64.canonZ a) (F64.canonZ b) = F64.canonZ (Z.min a b).
Proof.
  intros Ha Hb. unfold F64.Min, F64.eqb, F64.ltb, SFeqb, SFltb.
  destruct (canonZ_not_special a Ha) as (-> & -> & Sa).
  destruct (canonZ_not_special b Hb) as (-> & -> & _).
  cbn [orb]. rewrite Sa.
  change (S754_zero false) with (F64.canonZ 0).
  rewrite !compare_canonZ; try assumption; [| unfold F64.exact_int; reflexivity].
  destruct (Z.compare_spec a 0) as [-> | L0 | G0]; cbn [andb].
  - destruct (Z.compare_spec 0 b) as [<- | L | G]; cbn [andb].
    + reflexivity.
    + now rewrite Z.min_l by lia.
    + now rewrite Z.min_r by lia.
  - destruct (Z.compare_spec a b); [rewrite Z.min_r by lia; congruence
                                   | now rewrite Z.min_l by lia
                                   | now rewrite Z.min_r by lia].
  - destruct (Z.compare_spec a b); [rewrite Z.min_r by lia; congruence
                                   | now rewrite Z.min_l by lia
                                   | now rewrite Z.min_r by lia].
Qed.

Lemma Zdigits2_bound (m : Z) : 0 <= m -> m < 2 ^ Zdigits2 m /\ 0 <= Zdigits2 m.
Proof.
  intros H. destruct m as [| p | p]; cbn [Zdigits2]; try lia.
  pose proof (digits2_bounds p). lia.
Qed.

Lemma shr_record_of_loc_m (m : Z) (l : location) : shr_m (shr_record_of_loc m l) = m.
Proof. destruct l as [| []]; reflexivity. Qed.

(** After the shift to the working exponent a mantissa has at most 53
    bits. *)
Lemma shr_fexp_bounded (m e : Z) (l : location) :
  0 <= m -> 0 <= shr_m (fst (shr_fexp 53 1024 m e l)) < 2 ^ 53.
Proof.
  intros Hm. unfold shr_fexp, shr, fexp, emin.
  destruct (Zdigits2_bound m Hm) as [Hd Hd0].
  set (d := Zdigits2 m) in *.
  destruct (Z.max (d + e - 53) (3 - 1024 - 53) - e) as [| p | p] eqn:En; cbn [fst].
  - rewrite shr_record_of_loc_m. split; [lia |].
    assert (2 ^ d <= 2 ^ 53) by (apply Z.pow_le_mono_r; lia). lia.
  - rewrite iter_pos_nat, shr_iter_m, shr_record_of_loc_m, positive_nat_Z
      by (rewrite shr_record_of_loc_m; lia).
    assert (Hp : 0 < 2 ^ Zpos p) by (apply Z.pow_pos_nonneg; lia).
    split; [apply Z.div_pos; lia |].
    apply Z.div_lt_upper_bound; [lia |].
    rewrite <- Z.pow_add_r by lia.
    assert (2 ^ d <= 2 ^ (Zpos p + 53)) by (apply Z.pow_le_mono_r; lia). lia.
  - rewrite shr_record_of_loc_m. split; [lia |].
    assert (2 ^ d <= 2 ^ 53) by (apply Z.pow_le_mono_r; lia). lia.
Qed.

Lemma round_nearest_even_nonneg (m : Z) (l : location) :
  0 <= m -> 0 <= round_nearest_even m l.
Proof.
  intros H. destruct l as [| []]; cbn [round_nearest_even]; try lia.
  destruct (Z.even m); lia.
Qed.

(** Whatever it is given, the rounding yields a zero, an infinity or a
    finite double of the sign asked for, with a mantissa of at most 53
    bits. *)
Lemma BRA_shape (s : bool) (mx ex : Z) (lx : location) :
  0 <= mx ->
  match binary_round_aux 53 1024 s mx ex lx with
  | S754_zero s' | S754_infinity s' => s' = s
  | S754_finite s' m _ => s' = s /\ Zpos m < 2 ^ 53
  | S754_nan => False
  end.
Proof.
  intros Hm. unfold binary_round_aux.
  pose proof (shr_fexp_bounded mx ex lx Hm) as H1.
  destruct (shr_fexp 53 1024 mx ex lx) as [mrs' e'] eqn:E1. cbn [fst] in H1.
  pose proof (shr_fexp_bounded (round_nearest_even (shr_m mrs') (loc_of_shr_record mrs')) e'
                loc_Exact (round_nearest_even_nonneg _ _ (proj1 H1))) as H2.
  destruct (shr_fexp 53 1024 _ e' loc_Exact) as [mrs'' e''] eqn:E2. cbn [fst] in H2.
  destruct (shr_m mrs'') as [| m | m]; try lia.
  - reflexivity.
  - destruct (e'' <=? 1024 - 53); [split; [reflexivity | lia] | reflexivity].
Qed.

Lemma div_eucl_nonneg (a b : Z) : 0 <= a -> 0 < b -> 0 <= fst (Z.div_eucl a b).
Proof.
  intros Ha Hb. change (fst (Z.div_eucl a b)) with (a / b). apply Z.div_pos; lia.
Qed.

(** A finite quotient has a mantissa of at most 53 bits. *)
Lemma div_finite_bounded (x y : float64) (s : bool) (m : positive) (e : Z) :
  F64.div x y = S754_finite s m e -> Zpos m < 2 ^ 53.
Proof.
  unfold F64.div, F64.prec, F64.emax.
  destruct x as [sx | sx | | sx mx ex], y as [sy | sy | | sy my ey];
    cbn [SFdiv]; try discriminate.
  unfold SFdiv_core_binary.
  match goal with
  | |- context [Z.div_eucl ?a ?b] =>
      pose proof (div_eucl_nonneg a b) as Hq;
      destruct (Z.div_eucl a b) as [q r] eqn:Eq
  end.
  cbn [fst] in Hq. intros H.
  assert (Hq0 : 0 <= q).
  { apply Hq; [| lia].
    match goal with
    | |- 0 <= match ?s with _ => _ end => destruct s; try lia
    end.
    rewrite Z.shiftl_mul_pow2 by lia.
    apply Z.mul_nonneg_nonneg; [lia | apply Z.pow_nonneg; lia]. }
  match type of H with
  | binary_round_aux _ _ ?s' ?mx' ?ex' ?lx' = _ =>
      pose proof (BRA_shape s' mx' ex' lx' Hq0) as Hs
  end.
  rewrite H in Hs. tauto.
Qed.

Lemma exact_int_small (n : Z) : Z.abs n < 2 ^ 53 -> F64.exact_int n.
Proof.
  intros H. unfold F64.exact_int.
  assert (Hl : Z.log2 (Z.abs n) < 53).
  { destruct (Z.eq_dec (Z.abs n) 0) as [-> | Hn]; [reflexivity |].
    apply Z.log2_lt_pow2; lia. }
  rewrite Z.max_l by lia. apply Z.mod_1_r.
Qed.

Lemma exact_int_shift (M E : Z) : 0 < M < 2 ^ 53 -> 0 <= E -> F64.exact_int (M * 2 ^ E).
Proof.
  intros HM HE. unfold F64.exact_int.
  assert (Hp : 0 < 2 ^ E) by (apply Z.pow_pos_nonneg; lia).
  rewrite Z.abs_eq by nia. rewrite Z.log2_mul_pow2 by lia.
  assert (Hl : Z.log2 M < 53) by (apply Z.log2_lt_pow2; lia).
  set (k := Z.max 0 (E + Z.log2 M - 52)).
  assert (Hk : 0 <= k <= E) by (unfold k; lia).
  replace E with ((E - k) + k) by lia. rewrite Z.pow_add_r by lia.
  rewrite Z.mul_assoc. apply Z.mod_mul. apply Z.pow_nonzero; lia.
Qed.

Lemma to_int_in_range (f : float64) : Int.in_range (F64.to_int f).
Proof.
  unfold F64.to_int, Int.in_range.
  destruct f as [s | s | | s m e]; try (unfold Int.min_int, Int.max_int; lia).
  match goal with |- context [if ?c then _ else _] => destruct c eqn:Ec end.
  - apply andb_true_iff in Ec. destruct Ec as [E1 E2].
    apply Z.leb_le in E1, E2. lia.
  - unfold Int.min_int, Int.max_int; lia.
Qed.

(** Half of what [int(f)] gives, for a double [f] with a mantissa of at
    most 53 bits, has a double: above [2^53] the integer ends in zero bits. *)
Lemma to_int_half_exact (f : float64) :
  match f with S754_finite _ m _ => Zpos m < 2 ^ 53 | _ => True end ->
  F64.exact_int (Z.quot (F64.to_int f) 2).
Proof.
  assert (Hmin : F64.exact_int (Z.quot Int.min_int 2)) by (vm_compute; reflexivity).
  destruct f as [s | s | | s m e]; intros Hm;
    [apply exact_int_small; reflexivity | exact Hmin | exact Hmin |].
  - unfold F64.to_int.
    match goal with |- context [if ?c then _ else _] => destruct c end; [| exact Hmin].
    assert (Hcore : F64.exact_int (Z.quot (F64.trunc_mag m e) 2)).
    { rewrite trunc_mag_spec. destruct (Z.ltb_spec e 0) as [He | He].
      - apply exact_int_small.
        assert (0 < 2 ^ (- e)) by (apply Z.pow_pos_nonneg; lia).
        assert (0 <= Zpos m / 2 ^ (- e) <= Zpos m).
        { split; [apply Z.div_pos; lia |]. apply Z.div_le_upper_bound; [lia | nia]. }
        rewrite Z.quot_div_nonneg by lia.
        assert (0 <= Zpos m / 2 ^ (- e) / 2 <= Zpos m / 2 ^ (- e)).
        { split; [apply Z.div_pos; lia |]. apply Z.div_le_upper_bound; lia. }
        lia.
      - destruct (Z.eq_dec e 0) as [-> | He0].
        + apply exact_int_small. rewrite Z.pow_0_r, Z.mul_1_r.
          rewrite Z.quot_div_nonneg by lia.
          assert (0 <= Zpos m / 2 <= Zpos m).
          { split; [apply Z.div_pos; lia |]. apply Z.div_le_upper_bound; lia. }
          lia.
        + replace (Zpos m * 2 ^ e) with (Zpos m * 2 ^ (e - 1) * 2).
          * rewrite Z.quot_mul by lia. apply exact_int_shift; lia.
          * rewrite <- Z.mul_assoc. f_equal.
            rewrite Z.mul_comm, <- Z.pow_succ_r by lia. f_equal. lia. }
    destruct s; [| exact Hcore].
    rewrite Z.quot_opp_l by lia. now apply exact_int_opp.
Qed.

Lemma shl_align_fst (mx : positive) (ex ez : Z) : ez <= ex ->
  Zpos (fst (shl_align mx ex ez)) = Zpos mx * 2 ^ (ex - ez).
Proof.
  intros H. unfold shl_align. destruct (ez - ex) as [| p | p] eqn:E; cbn [fst]; try lia.
  - replace (ex - ez) with 0 by lia. lia.
  - rewrite iter_xO_shift. f_equal. f_equal. lia.
Qed.

(** The canonical double of a small integer, spelled out. *)
Lemma canonZ_small (n : Z) : 0 < Z.abs n < 2 ^ 53 ->
  F64.canonZ n = F64.fin (n <? 0) (Z.abs n * 2 ^ (52 - Z.log2 (Z.abs n))) (Z.log2 (Z.abs n) - 52).
Proof.
  intros H. unfold F64.canonZ.
  assert (Hl : Z.log2 (Z.abs n) < 53) by (apply Z.log2_lt_pow2; lia).
  destruct (Z.leb_spec (Z.log2 (Z.abs n) + 1) 53); [| lia].
  f_equal; [f_equal; f_equal |]; lia.
Qed.

(** Rounding an integer below [2^53] that is written with [k] extra low
    zero bits gives its canonical double. *)
Lemma BR_scaled (s : bool) (M : positive) (n k : Z) :
  Zpos M = n * 2 ^ k -> 0 < n < 2 ^ 53 -> 0 <= k <= 1074 ->
  binary_round 53 1024 s M (- k) = F64.fin s (n * 2 ^ (52 - Z.log2 n)) (Z.log2 n - 52).
Proof.
  intros HM Hn Hk.
  assert (Hl : 0 <= Z.log2 n < 53).
  { split; [apply Z.log2_nonneg | apply Z.log2_lt_pow2; lia]. }
  assert (Hd : Zpos (digits2_pos M) = Z.log2 n + k + 1).
  { rewrite digits2_log2, HM, Z.log2_mul_pow2 by lia. lia. }
  assert (Hp : forall j, 0 <= j -> 0 < 2 ^ j) by (intros; apply Z.pow_pos_nonneg; lia).
  rewrite BR_exact; rewrite Hd.
  - f_equal; [| lia]. rewrite HM.
    destruct (Z.leb_spec (Z.log2 n + k + 1) 53).
    + rewrite <- Z.mul_assoc, <- Z.pow_add_r by lia. f_equal. f_equal. lia.
    + replace k with ((52 - Z.log2 n) + (Z.log2 n + k + 1 - 53)) at 1 by lia.
      rewrite Z.pow_add_r, Z.mul_assoc, Z.div_mul by (try apply Z.pow_nonzero; lia).
      reflexivity.
  - rewrite HM. set (j := Z.max 0 (Z.log2 n + k + 1 - 53)).
    assert (0 <= j <= k) by (unfold j; lia).
    replace k with ((k - j) + j) by lia.
    rewrite Z.pow_add_r, Z.mul_assoc by lia. apply Z.mod_mul. apply Z.pow_nonzero; lia.
  - lia.
Qed.

Lemma binary_normalize_scaled (z : Z) (k : Z) :
  Z.abs z < 2 ^ 53 -> 0 <= k <= 1074 ->
  binary_normalize 53 1024 (z * 2 ^ k) (- k) false = F64.canonZ z.
Proof.
  intros Hz Hk.
  assert (Hp : 0 < 2 ^ k) by (apply Z.pow_pos_nonneg; lia).
  destruct (Z.eq_dec z 0) as [-> | Nz]; [reflexivity |].
  rewrite canonZ_small by lia. unfold binary_normalize.
  destruct (z * 2 ^ k) as [| M | M] eqn:EM; try nia.
  - rewrite (BR_scaled false M z k) by (try lia; nia).
    destruct (Z.ltb_spec z 0); [nia |]. now rewrite Z.abs_eq by lia.
  - rewrite (BR_scaled true M (- z) k) by (try lia; nia).
    destruct (Z.ltb_spec z 0); [| nia]. now rewrite Z.abs_neq by lia.
Qed.


(** Sums and differences of integers below [2^53] are exact. *)
Lemma SFadd_sub_canonZ (a b : Z) (neg : bool) :
  Z.abs a < 2 ^ 53 -> Z.abs b < 2 ^ 53 ->
  Z.abs (if neg then a - b else a + b) < 2 ^ 53 ->
  (if neg then SFsub 53 1024 else SFadd 53 1024) (F64.canonZ a) (F64.canonZ b)
  = F64.canonZ (if neg then a - b else a + b).
Proof.
  intros Ha Hb Hab.
  destruct (Z.eq_dec a 0) as [-> | Na]; destruct (Z.eq_dec b 0) as [-> | Nb].
  - destruct neg; reflexivity.
  - pose proof (exact_int_small b Hb) as Eb.
    destruct (canonZ_cases b Eb Nb) as (mb & eb & E & _).
    destruct neg; cbn [Z.add Z.sub Z.add].
    + rewrite canonZ_opp by assumption. rewrite canonZ_0, E. reflexivity.
    + rewrite canonZ_0, E. reflexivity.
  - pose proof (exact_int_small a Ha) as Ea.
    destruct (canonZ_cases a Ea Na) as (ma & ea & E & _).
    replace (if neg then a - 0 else a + 0) with a by (destruct neg; lia).
    rewrite canonZ_0, E. destruct neg; reflexivity.
  - pose proof (exact_int_small a Ha) as Ea. pose proof (exact_int_small b Hb) as Eb.
    destruct (canonZ_cases a Ea Na) as (ma & ea & E1 & Hea & _ & A1 & _).
    destruct (canonZ_cases b Eb Nb) as (mb & eb & E2 & Heb & _ & B1 & _).
    assert (La : 0 <= Z.log2 (Z.abs a) < 53)
      by (split; [apply Z.log2_nonneg | apply Z.log2_lt_pow2; lia]).
    assert (Lb : 0 <= Z.log2 (Z.abs b) < 53)
      by (split; [apply Z.log2_nonneg | apply Z.log2_lt_pow2; lia]).
    rewrite E1, E2.
    set (ez := Z.min ea eb).
    assert (Hez : -52 <= ez <= 0) by (unfold ez; lia).
    assert (Hma : Zpos (fst (shl_align ma ea ez)) = Z.abs a * 2 ^ (- ez)).
    { rewrite shl_align_fst by (unfold ez; lia). rewrite A1 by lia.
      rewrite <- Z.mul_assoc, <- Z.pow_add_r by lia. f_equal. f_equal. lia. }
    assert (Hmb : Zpos (fst (shl_align mb eb ez)) = Z.abs b * 2 ^ (- ez)).
    { rewrite shl_align_fst by (unfold ez; lia). rewrite B1 by lia.
      rewrite <- Z.mul_assoc, <- Z.pow_add_r by lia. f_equal. f_equal. lia. }
    assert (Ca : cond_Zopp (a <? 0) (Zpos (fst (shl_align ma ea ez))) = a * 2 ^ (- ez)).
    { rewrite Hma. unfold cond_Zopp. destruct (Z.ltb_spec a 0); [| now rewrite Z.abs_eq by lia].
      rewrite Z.abs_neq by lia. ring. }
    assert (Cb : cond_Zopp (b <? 0) (Zpos (fst (shl_align mb eb ez))) = b * 2 ^ (- ez)).
    { rewrite Hmb. unfold cond_Zopp. destruct (Z.ltb_spec b 0); [| now rewrite Z.abs_eq by lia].
      rewrite Z.abs_neq by lia. ring. }
    destruct neg; cbn [SFadd SFsub]; fold ez; rewrite Ca, Cb.
    + rewrite <- Z.mul_sub_distr_r.
      replace ez with (- (- ez)) at 2 by lia.
      apply binary_normalize_scaled; lia.
    + rewrite <- Z.mul_add_distr_r.
      replace ez with (- (- ez)) at 2 by lia.
      apply binary_normalize_scaled; lia.
Qed.

(** Doubling is exact. *)
Lemma SFmul2_canonZ (a : Z) :
  Z.abs a < 2 ^ 52 -> SFmul 53 1024 (F64.canonZ a) (F64.of_int 2) = F64.canonZ (2 * a).
Proof.
  intros Ha. change (F64.of_int 2) with (S754_finite false 4503599627370496 (-51)).
  destruct (Z.eq_dec a 0) as [-> | Na]; [reflexivity |].
  assert (Ha' : Z.abs a < 2 ^ 53) by lia.
  pose proof (exact_int_small a Ha') as Ea.
  destruct (canonZ_cases a Ea Na) as (ma & ea & E1 & Hea & Hm & A1 & _).
  assert (La : 0 <= Z.log2 (Z.abs a) < 52)
    by (split; [apply Z.log2_nonneg | apply Z.log2_lt_pow2; lia]).
  assert (Hd : Zpos (digits2_pos (ma * 4503599627370496)) = 105).
  { apply digits2_unique. rewrite Pos2Z.inj_mul.
    change (Zpos 4503599627370496) with (2 ^ 52).
    change (2 ^ (105 - 1)) with (2 ^ 52 * 2 ^ 52). change (2 ^ 105) with (2 ^ 53 * 2 ^ 52).
    lia. }
  rewrite E1. cbn [SFmul]. rewrite xorb_false_r.
  rewrite BRA_exact.
  - rewrite Hd. change (105 - 53) with 52. rewrite Pos2Z.inj_mul.
    change (Zpos 4503599627370496) with (2 ^ 52). rewrite Z.div_mul by lia.
    rewrite canonZ_small by lia.
    replace (2 * a <? 0) with (a <? 0)
      by (destruct (Z.ltb_spec a 0), (Z.ltb_spec (2 * a) 0); (reflexivity || lia)).
    replace (Z.abs (2 * a)) with (2 * Z.abs a) by lia.
    rewrite Z.log2_double by lia.
    rewrite A1 by lia. cbn [F64.fin].
    f_equal; [| lia].
    replace (- ea) with (Z.succ (52 - Z.succ (Z.log2 (Z.abs a)))) by lia.
    rewrite Z.pow_succ_r by lia. ring.
  - rewrite Hd. lia.
  - rewrite Hd. change (105 - 53) with 52. rewrite Pos2Z.inj_mul.
    change (Zpos 4503599627370496) with (2 ^ 52). apply Z.mod_mul. lia.
  - rewrite Hd. lia.
Qed.

End F64Facts.

(* ------------------------------------------------------------------ *)
(** ** Unit conversion *)

(** The constant of [mmToPixels] is the double nearest to 25.4. *)
Lemma c25_4_literal : F64.c25_4 = F64.div (F64.of_int 254) (F64.of_int 10).
Proof. vm_compute. reflexivity. Qed.

Lemma c0_1_literal : F64.c0_1 = F64.div (F64.of_int 1) (F64.of_int 10).
Proof. vm_compute. reflexivity. Qed.

Lemma c1_1_literal : F64.c1_1 = F64.div (F64.of_int 11) (F64.of_int 10).
Proof. vm_compute. reflexivity. Qed.

Lemma validateDPI_accepts (dpi : Z) :
  validateDPI dpi = None <-> dpi = 203 \/ dpi = 300 \/ dpi = 600.
Proof.
  unfold validateDPI, standardDPIValues. cbn [existsb].
  destruct (Z.eqb_spec dpi 203), (Z.eqb_spec dpi 300), (Z.eqb_spec dpi 600);
    cbn [orb]; split; intros H; try reflexivity; try discriminate; try tauto;
    destruct H as [H | [H | H]]; contradiction.
Qed.

Lemma mmToPixels_in_range (mm : float64) (dpi : Z) : Int.in_range (mmToPixels mm dpi).
Proof. apply F64Facts.to_int_in_range. Qed.

(** C8.  For every resolution that [validateDPI] accepts (203, 300 and
    600), one inch, 25.4 mm, converts to exactly that many pixels. *)
Theorem mmToPixels_one_inch (r : Z) :
  validateDPI r = None -> mmToPixels F64.c25_4 r = r.
Proof.
  intros H. apply validateDPI_accepts in H.
  destruct H as [-> | [-> | ->]]; vm_compute; reflexivity.
Qed.

Lemma mmToPixels_one_inch_witness :
  validateDPI 600 = None /\ mmToPixels F64.c25_4 600 = 600.
Proof.
  split; [reflexivity | apply (mmToPixels_one_inch 600); reflexivity].
Defined.

(** The conversions the test suite of the package expects. *)
Example mmToPixels_two_inches : mmToPixels (F64.div (F64.of_int 508) (F64.of_int 10)) 203 = 406.
Proof. vm_compute. reflexivity. Qed.

Example mmToPixels_10mm_100dpi : mmToPixels (F64.of_int 10) 100 = 39.
Proof. vm_compute. reflexivity. Qed.

(** The conversion truncates toward zero: below zero it is not the floor. *)
Example mmToPixels_minus_1mm : mmToPixels (F64.of_int (-1)) 300 = -11.
Proof. vm_compute. reflexivity. Qed.

(* ------------------------------------------------------------------ *)
(** ** Symbol sizing *)

Lemma exact_int_min (a b : Z) :
  F64.exact_int a -> F64.exact_int b -> F64.exact_int (Z.min a b).
Proof. intros Ha Hb. destruct (Z.min_spec a b) as [[_ ->] | [_ ->]]; assumption. Qed.

Lemma in_range_min (a b : Z) :
  Int.in_range a -> Int.in_range b -> Int.in_range (Z.min a b).
Proof. unfold Int.in_range. lia. Qed.

Lemma in_range_abs (n : Z) : Int.in_range n -> Z.abs n <= 2 ^ 63.
Proof. unfold Int.in_range, Int.min_int, Int.max_int. lia. Qed.

Lemma in_range_half (n : Z) : Int.in_range n -> Int.in_range (Z.quot n 2).
Proof.
  unfold Int.in_range, Int.min_int, Int.max_int. intros H.
  pose proof (Z.quot_rem' n 2) as E. pose proof (Z.rem_bound_abs n 2 ltac:(lia)) as B.
  destruct (Z.le_gt_cases 0 n) as [Hn | Hn].
  - pose proof (Z.rem_nonneg n 2 ltac:(lia) Hn). lia.
  - pose proof (Z.rem_nonpos n 2 ltac:(lia) ltac:(lia)). lia.
Qed.

(** The [int(math.Min(float64(a), float64(b)))] of the source is the
    integer minimum, on integers that convert without rounding. *)
Lemma to_int_Min_of_int (a b : Z) :
  Int.in_range a -> Int.in_range b -> F64.exact_int a -> F64.exact_int b ->
  F64.to_int (F64.Min (F64.of_int a) (F64.of_int b)) = Z.min a b.
Proof.
  intros Ra Rb Ea Eb.
  rewrite !F64Facts.of_int_exact by auto using in_range_abs.
  rewrite F64Facts.Min_canonZ by assumption.
  apply F64Facts.to_int_canonZ; auto using exact_int_min, in_range_min.
Qed.

Lemma calculateCode128Size_spec (labelWidth labelHeight : Z) :
  Int.in_range labelWidth -> 20 < labelWidth ->
  Int.in_range labelHeight -> F64.exact_int (Z.quot labelHeight 2) ->
  calculateCode128Size labelWidth labelHeight
  = Pt (labelWidth - 20) (Z.min (Z.quot labelHeight 2) 200).
Proof.
  intros Rw Hw Rh Eh. unfold calculateCode128Size, labelMarginPixels.
  change (10 * 2) with 20.
  rewrite IntFacts.sub_id
    by (unfold Int.in_range, Int.min_int, Int.max_int in *; lia).
  rewrite IntFacts.quo_id by now apply in_range_half.
  rewrite to_int_Min_of_int.
  - reflexivity.
  - now apply in_range_half.
  - unfold Int.in_range, Int.min_int, Int.max_int; lia.
  - assumption.
  - apply F64Facts.exact_int_small. reflexivity.
Qed.

Lemma mmToPixels_half_exact (mm : float64) (dpi : Z) :
  F64.exact_int (Z.quot (mmToPixels mm dpi) 2).
Proof.
  unfold mmToPixels. apply F64Facts.to_int_half_exact.
  destruct (F64.div _ _) as [s | s | | s m e] eqn:E; try exact I.
  now apply F64Facts.div_finite_bounded in E.
Qed.

(** C7.  For every Code128 request whose canvas is more than 20 pixels
    wide, the computed symbol size is the canvas width less the two
    10-pixel margins by the smaller of half the canvas height and 200. *)
Theorem code128_symbol_size (C : Collaborators) (input : BarcodeInput) :
  BarcodeType_ input = BarcodeTypeCode128 ->
  let labelWidth := mmToPixels (Width input) (Dpi input) in
  let labelHeight := mmToPixels (Height input) (Dpi input) in
  20 < labelWidth ->
  calculateBarcodeSize C input labelWidth labelHeight
  = Pt (labelWidth - 2 * labelMarginPixels) (Z.min (Z.quot labelHeight 2) 200).
Proof.
  intros Ht labelWidth labelHeight Hw. unfold calculateBarcodeSize.
  rewrite Ht. cbn [String.eqb]. rewrite String.eqb_refl.
  apply calculateCode128Size_spec; try assumption;
    try apply mmToPixels_in_range. apply mmToPixels_half_exact.
Qed.

Lemma code128_symbol_size_witness :
  let input :=
    MkBarcodeInput "1234567890" BarcodeTypeCode128 (F64.of_int 100) (F64.of_int 60)
      300 [] in
  calculateBarcodeSize Sample.collaborators input 1181 708 = Pt 1161 200.
Proof.
  apply (code128_symbol_size Sample.collaborators
           (MkBarcodeInput "1234567890" BarcodeTypeCode128 (F64.of_int 100)
              (F64.of_int 60) 300 [])).
  - reflexivity.
  - vm_compute. reflexivity.
Defined.

(* ------------------------------------------------------------------ *)
(** ** The shrink loop *)

Section ShrinkFacts.

Variable C : Collaborators.
Variables (maxWidth : Z) (text : string) (dpi : float64).

Local Abbreviation wide := (tooWide C maxWidth text dpi).
Local Abbreviation run := (fun fuel => shrink C fuel maxWidth text dpi).
Local Abbreviation heightAfter := (heightAfter C dpi).

Lemma shrunk_S (fontSize : float64) (k : nat) :
  shrunk fontSize (S k) = F64.sub (shrunk fontSize k) F64.c0_1.
Proof.
  revert fontSize. induction k as [| k IH]; intros fontSize; [reflexivity |].
  change (shrunk fontSize (S (S k))) with (shrunk (F64.sub fontSize F64.c0_1) (S k)).
  rewrite IH. reflexivity.
Qed.

Lemma shrunk_add (fontSize : float64) (a b : nat) :
  shrunk fontSize (a + b) = shrunk (shrunk fontSize a) b.
Proof.
  revert fontSize. induction a as [| a IH]; intros fontSize; [reflexivity |].
  cbn [Nat.add shrunk]. apply IH.
Qed.

Lemma heightAfter_S (fontSize fontHeight : float64) (k : nat) :
  heightAfter (F64.sub fontSize F64.c0_1)
    (calculateFontHeight C (F64.sub fontSize F64.c0_1) (F64.to_int dpi)) k
  = heightAfter fontSize fontHeight (S k).
Proof. destruct k; reflexivity. Qed.

(** Whatever the loop returns is the first size of the sequence that is
    not too wide. *)
Lemma shrink_sound (fuel : nat) :
  forall fontSize fontHeight s h,
    run fuel fontSize fontHeight = Some (s, h) ->
    exists k, (k < fuel)%nat
      /\ s = shrunk fontSize k
      /\ h = heightAfter fontSize fontHeight k
      /\ wide s = false
      /\ forall j, (j < k)%nat -> wide (shrunk fontSize j) = true.
Proof.
  induction fuel as [| fuel IH]; intros fontSize fontHeight s h; cbn [shrink];
    [discriminate |].
  destruct (wide fontSize) eqn:Ew.
  - intros H. apply IH in H. destruct H as (k & Hk & -> & -> & Hfit & Hpre).
    exists (S k). repeat split; try assumption; try lia.
    + apply heightAfter_S.
    + intros [| j] Hj; [exact Ew | apply Hpre; lia].
  - intros H. injection H as <- <-. exists O. repeat split; try assumption; lia.
Qed.

(** And the first size that is not too wide is returned, as soon as
    the budget of calls reaches it: there is no other exit. *)
Lemma shrink_complete (k : nat) :
  forall fuel fontSize fontHeight,
    (k < fuel)%nat ->
    (forall j, (j < k)%nat -> wide (shrunk fontSize j) = true) ->
    wide (shrunk fontSize k) = false ->
    run fuel fontSize fontHeight
    = Some (shrunk fontSize k, heightAfter fontSize fontHeight k).
Proof.
  induction k as [| k IH]; intros [| fuel] fontSize fontHeight Hk Hpre Hfit;
    try lia; cbn [shrink].
  - cbn [shrunk] in Hfit. rewrite Hfit. reflexivity.
  - pose proof (Hpre O ltac:(lia)) as H0. cbn [shrunk] in H0. rewrite H0, IH.
    + rewrite (heightAfter_S fontSize fontHeight). reflexivity.
    + lia.
    + intros j Hj. apply (Hpre (S j)). lia.
    + exact Hfit.
Qed.

Lemma shrink_diverges (fuel : nat) :
  forall fontSize fontHeight,
    (forall j, (j < fuel)%nat -> wide (shrunk fontSize j) = true) ->
    run fuel fontSize fontHeight = None.
Proof.
  induction fuel as [| fuel IH]; intros fontSize fontHeight H; [reflexivity |].
  cbn [shrink]. pose proof (H O ltac:(lia)) as H0. cbn [shrunk] in H0.
  rewrite H0. apply IH.
  intros j Hj. apply (H (S j)). lia.
Qed.

(** If some size within the budget is not too wide, the loop returns,
    at that size or an earlier one. *)
Lemma shrink_returns (k : nat) :
  forall fuel fontSize fontHeight,
    (k < fuel)%nat -> wide (shrunk fontSize k) = false ->
    exists k', (k' <= k)%nat
      /\ run fuel fontSize fontHeight
         = Some (shrunk fontSize k', heightAfter fontSize fontHeight k').
Proof.
  induction k as [| k IH]; intros [| fuel] fontSize fontHeight Hk Hfit;
    try lia; cbn [shrink].
  - cbn [shrunk] in Hfit. rewrite Hfit. exists O. split; [lia | reflexivity].
  - destruct (wide fontSize) eqn:Ew.
    + destruct (IH fuel (F64.sub fontSize F64.c0_1)
                  (calculateFontHeight C (F64.sub fontSize F64.c0_1) (F64.to_int dpi)))
        as (k' & Hk' & E); [lia | exact Hfit |].
      exists (S k'). split; [lia |]. rewrite E, (heightAfter_S fontSize fontHeight). reflexivity.
    + exists O. split; [lia | reflexivity].
Qed.

Lemma forallb_seq (f : nat -> bool) (k : nat) :
  forallb f (seq 0 k) = true -> forall j, (j < k)%nat -> f j = true.
Proof.
  intros H j Hj. rewrite forallb_forall in H. apply H. apply in_seq. lia.
Qed.

End ShrinkFacts.

Lemma tooWide_antitone (C : Collaborators) (w1 w2 : Z) (text : string)
    (dpi size : float64) :
  w1 <= w2 -> tooWide C w2 text dpi size = true -> tooWide C w1 text dpi size = true.
Proof. unfold tooWide. intros H H2. apply Z.ltb_lt in H2. apply Z.ltb_lt. lia. Qed.

Lemma lastOp_paint (img : RGBA) (op : DrawOp) : lastOp (paint img op) = Some op.
Proof.
  unfold lastOp, paint. cbn [Ops]. rewrite map_app. cbn [map]. apply last_last.
Qed.

(** [addTextLineRecursive] is the shrink loop followed by [drawText]. *)
Lemma addTextLineRecursive_shrink (C : Collaborators) (fuel : nat) (img : RGBA)
    (text : string) (centerX baseY : Z) (dpi : float64) (position : TextPosition) :
  forall fontSize fontHeight,
    addTextLineRecursive C fuel img text centerX baseY fontSize fontHeight dpi position
    = match shrink C fuel (maxTextWidth img) text dpi fontSize fontHeight with
      | Some (s, h) => Some (drawText C img text centerX baseY s h dpi position Black)
      | None => None
      end.
Proof.
  induction fuel as [| fuel IH]; intros fontSize fontHeight; [reflexivity |].
  cbn [addTextLineRecursive shrink]. unfold tooWide, maxTextWidth.
  destruct (_ <? _); [apply IH | reflexivity].
Qed.

Lemma addTextLine_fitted (C : Collaborators) (fuel : nat) (img : RGBA)
    (centerX baseY dpi : Z) (textLine : TextLine) :
  addTextLine C fuel img (Text textLine) centerX baseY (Size textLine)
    (F64.of_int dpi) (Position textLine)
  = match fitted C fuel img dpi textLine with
    | Some (s, h) =>
        Some (drawText C img (Text textLine) centerX baseY s h (F64.of_int dpi)
                (Position textLine) Black)
    | None => None
    end.
Proof.
  unfold addTextLine, fitted.
  destruct (getFontSize _ _ _ _) as [fontSize fontHeight].
  apply addTextLineRecursive_shrink.
Qed.

(* ------------------------------------------------------------------ *)
(** ** Where a text line is drawn *)

Lemma fitted_height (C : Collaborators) (fuel : nat) (img : RGBA) (dpi : Z)
    (textLine : TextLine) (s h : float64) :
  fitted C fuel img dpi textLine = Some (s, h) ->
  h = calculateFontHeight C s (F64.to_int (F64.of_int dpi)).
Proof.
  unfold fitted, getFontSize. intros H. apply shrink_sound in H.
  destruct H as (k & _ & -> & -> & _). destruct k; reflexivity.
Qed.

(** C4, as the code has it.  A text line with position BELOW that is
    drawn is drawn at the symbol rectangle's bottom edge, plus twice the
    integer half of the fitted line height (one line height, rounded down
    to an even number of pixels), plus 5 pixels, in the arithmetic of
    [int]; the fitted line height is the one of the resolved size. *)
Theorem below_text_position (C : Collaborators) (fuel : nat) (img img' : RGBA)
    (dpi centerX : Z) (barcodeRect : Rectangle) (textLine : TextLine) :
  Position textLine = TextPositionBelow ->
  addTextLine C fuel img (Text textLine) centerX
    (calculateTextYPosition barcodeRect (Position textLine))
    (Size textLine) (F64.of_int dpi) (Position textLine) = Some img' ->
  exists s h x,
    fitted C fuel img dpi textLine = Some (s, h)
    /\ h = calculateFontHeight C s (F64.to_int (F64.of_int dpi))
    /\ lastOp img'
       = Some (DrawString (Text textLine)
                 (Pt x (Int.add (Int.add (Y (Max barcodeRect))
                                   (Int.mul (Int.quo (F64.to_int h) 2) 2)) 5))
                 s (F64.of_int dpi) Black).
Proof.
  intros Hpos. rewrite addTextLine_fitted.
  destruct (fitted C fuel img dpi textLine) as [[s h] |] eqn:Ef; [| discriminate].
  intros H. injection H as <-.
  exists s, h. eexists. split; [reflexivity |].
  split; [now apply fitted_height in Ef |].
  unfold drawText, calculateTextYPosition. rewrite lastOp_paint, Hpos.
  reflexivity.
Qed.

Lemma below_text_position_witness :
  exists s h x,
    fitted Sample.collaborators 1 (createBlankLabel 600 400) 300 Examples.belowLine
    = Some (s, h)
    /\ h = calculateFontHeight Sample.collaborators s (F64.to_int (F64.of_int 300))
    /\ lastOp Examples.belowDrawn
       = Some (DrawString (Text Examples.belowLine)
                 (Pt x (Int.add (Int.add (Y (Max Examples.symbolRect))
                                   (Int.mul (Int.quo (F64.to_int h) 2) 2)) 5))
                 s (F64.of_int 300) Black).
Proof.
  refine (below_text_position Sample.collaborators 1 (createBlankLabel 600 400)
            Examples.belowDrawn 300 300 Examples.symbolRect Examples.belowLine _ _).
  - reflexivity.
  - vm_compute. reflexivity.
Defined.

(** On a text line whose fitted line height is 59 pixels the text is
    drawn 58 + 5 pixels below the symbol's bottom edge, not the 88 or 89
    of one and a half line heights plus 5. *)
Lemma below_text_not_one_and_a_half :
  exists img' s x y,
    addTextLine Sample.collaborators 1 (createBlankLabel 600 400)
      (Text Examples.belowLine) 300
      (calculateTextYPosition Examples.symbolRect (Position Examples.belowLine))
      (Size Examples.belowLine) (F64.of_int 300) (Position Examples.belowLine)
    = Some img'
    /\ fitted Sample.collaborators 1 (createBlankLabel 600 400) 300 Examples.belowLine
       = Some (s, F64.of_int 59)
    /\ lastOp img' = Some (DrawString (Text Examples.belowLine) (Pt x y) s
                             (F64.of_int 300) Black)
    /\ Y (Max Examples.symbolRect) = 300
    /\ y = 363
    /\ 2 * (y - Y (Max Examples.symbolRect) - 5) < 3 * 59.
Proof.
  do 4 eexists.
  split; [vm_compute; reflexivity |].
  split; [vm_compute; reflexivity |].
  split; [vm_compute; reflexivity |].
  split; [reflexivity |].
  split; [reflexivity |].
  vm_compute. reflexivity.
Qed.

(* ------------------------------------------------------------------ *)
(** ** The shrink loop has no floor *)

(** C2, as the code has it.  The loop has no smallest size: when the
    first [k] sizes of the sequence are too wide and the next one is not,
    the text is drawn at that size, whatever the size is (below one
    point, zero or negative alike); and rendering the text lines never
    yields an error. *)
Theorem shrink_has_no_floor (C : Collaborators) :
  (forall (fuel k : nat) (img : RGBA) (text : string) (centerX baseY : Z)
          (fontSize fontHeight dpi : float64) (position : TextPosition),
      (k < fuel)%nat ->
      forallb (fun j => tooWide C (maxTextWidth img) text dpi (shrunk fontSize j))
        (seq 0 k) = true ->
      tooWide C (maxTextWidth img) text dpi (shrunk fontSize k) = false ->
      addTextLineRecursive C fuel img text centerX baseY fontSize fontHeight dpi position
      = Some (drawText C img text centerX baseY (shrunk fontSize k)
                (heightAfter C dpi fontSize fontHeight k) dpi position Black))
  /\ (forall (fuel : nat) (img img' : RGBA) (input : BarcodeInput)
             (barcodeRect : Rectangle) (err : option error),
         renderTextLines C fuel img input barcodeRect = Some (img', err) ->
         err = None).
Proof.
  split.
  - intros fuel k img text centerX baseY fontSize fontHeight dpi position Hk Hpre Hfit.
    rewrite addTextLineRecursive_shrink.
    rewrite (shrink_complete C (maxTextWidth img) text dpi k fuel fontSize fontHeight Hk
               (forallb_seq _ k Hpre) Hfit).
    reflexivity.
  - intros fuel img img' input barcodeRect err. unfold renderTextLines.
    destruct (renderTextLines_loop _ _ _ _ _ _); [| discriminate].
    intros H. now injection H as _ <-.
Qed.

Lemma shrink_has_no_floor_witness :
  addTextLineRecursive Sample.collaborators 200 (createBlankLabel 203 203)
    (Text Examples.crampedLine) 101 150
    (F64.mul F64.c10_0 F64.c1_1) (F64.of_int 32) (F64.of_int 203)
    TextPositionBelow
  = Some (drawText Sample.collaborators (createBlankLabel 203 203)
            (Text Examples.crampedLine) 101 150
            (shrunk (F64.mul F64.c10_0 F64.c1_1) 105)
            (heightAfter Sample.collaborators (F64.of_int 203)
               (F64.mul F64.c10_0 F64.c1_1) (F64.of_int 32) 105)
            (F64.of_int 203) TextPositionBelow Black).
Proof.
  refine (proj1 (shrink_has_no_floor Sample.collaborators) 200%nat 105%nat
            (createBlankLabel 203 203) (Text Examples.crampedLine) 101 150
            (F64.mul F64.c10_0 F64.c1_1) (F64.of_int 32) (F64.of_int 203)
            TextPositionBelow _ _ _).
  - apply Nat.ltb_lt. reflexivity.
  - vm_compute. reflexivity.
  - vm_compute. reflexivity.
Defined.

(** A line of 240 letters on a one-inch label: no size of one point or
    more fits, the loop goes on to half a point, and the pipeline returns
    its output with no error. *)
Lemma cramped_text_shrinks_below_one_point :
  exists s h out,
    fitted Sample.collaborators 200 (createBlankLabel 203 203) 203 Examples.crampedLine
    = Some (s, h)
    /\ s = shrunk (F64.mul F64.c10_0 F64.c1_1) 105
    /\ forallb (fun j => tooWide Sample.collaborators 183 (Text Examples.crampedLine)
                           (F64.of_int 203) (shrunk (F64.mul F64.c10_0 F64.c1_1) j))
         (seq 0 105) = true
    /\ F64.ltb (shrunk (F64.mul F64.c10_0 F64.c1_1) 104) F64.c1_0 = true
    /\ F64.ltb s F64.c1_0 = true
    /\ mmToPixels (Width Examples.cramped) (Dpi Examples.cramped) = 203
    /\ GenerateBarcode Sample.collaborators 200 Examples.cramped = Some (Ok out).
Proof.
  do 3 eexists.
  split; [vm_compute; reflexivity |].
  split; [vm_compute; reflexivity |].
  split; [vm_compute; reflexivity |].
  split; [vm_compute; reflexivity |].
  split; [vm_compute; reflexivity |].
  split; [vm_compute; reflexivity |].
  vm_compute. reflexivity.
Qed.

(* ------------------------------------------------------------------ *)
(** ** The resolved size and the available width *)

Lemma wrap_in_range (z : Z) : Int.in_range (Int.wrap z).
Proof.
  unfold Int.in_range, Int.wrap, Int.min_int, Int.max_int.
  pose proof (Z.mod_pos_bound (z + 2 ^ 63) (2 ^ 64) ltac:(lia)). lia.
Qed.

Lemma maxTextWidth_plain (img : RGBA) :
  0 <= Dx (Bounds img) -> maxTextWidth img = Dx (Bounds img) - 20.
Proof.
  intros H. unfold maxTextWidth, labelMarginPixels. change (10 * 2) with 20.
  apply IntFacts.sub_id.
  pose proof (wrap_in_range (X (Max (Bounds img)) - X (Min (Bounds img)))) as R.
  fold (Int.sub (X (Max (Bounds img))) (X (Min (Bounds img)))) in R.
  fold (Dx (Bounds img)) in R.
  unfold Int.in_range, Int.min_int, Int.max_int in *. lia.
Qed.

Lemma same_eq (x y : float64) : F64.same x y = true -> x = y.
Proof.
  destruct x as [a | a | | a m e], y as [b | b | | b n f]; cbn [F64.same];
    try discriminate; try reflexivity.
  - intros H. apply Bool.eqb_prop in H. now subst.
  - intros H. apply Bool.eqb_prop in H. now subst.
  - intros H. apply andb_true_iff in H. destruct H as [H He].
    apply andb_true_iff in H. destruct H as [Hs Hm].
    apply Bool.eqb_prop in Hs. apply Pos.eqb_eq in Hm. apply Z.eqb_eq in He.
    now subst.
Qed.

(** On labels up to 300 pixels wide the scale factor is the lower clamp,
    1.1. *)
Lemma scaleFactorFor_narrow (w : Z) : 0 <= w <= 300 -> scaleFactorFor w = F64.c1_1.
Proof.
  intros Hw. apply same_eq.
  assert (H : forallb (fun n => F64.same (scaleFactorFor (Z.of_nat n)) F64.c1_1)
                (seq 0 301) = true)
    by (vm_compute; reflexivity).
  rewrite forallb_forall in H. specialize (H (Z.to_nat w)).
  rewrite Z2Nat.id in H by lia. apply H. apply in_seq. lia.
Qed.

(** C9, as the code has it.  For a fixed text, size class and resolution,
    and two available widths that give the same scale factor (all widths
    up to 300 pixels do), the wider label takes no more decrements of 0.1
    point than the narrower one: its resolved size is the same size of
    the same sequence, or an earlier one. *)
Theorem fitted_monotone_same_scale (C : Collaborators) (fuel : nat)
    (img1 img2 : RGBA) (dpi : Z) (textLine : TextLine) (s1 h1 : float64) :
  0 <= Dx (Bounds img1) <= Dx (Bounds img2) ->
  scaleFactorFor (Dx (Bounds img1)) = scaleFactorFor (Dx (Bounds img2)) ->
  fitted C fuel img1 dpi textLine = Some (s1, h1) ->
  let initial :=
    scaleFontByLabelWidth (getBaseFontSize (Size textLine)) (Dx (Bounds img1)) in
  exists k1 k2 h2,
    (k2 <= k1)%nat
    /\ s1 = shrunk initial k1
    /\ fitted C fuel img2 dpi textLine = Some (shrunk initial k2, h2).
Proof.
  intros Hw Hs H1 initial. unfold fitted, getFontSize in *.
  unfold scaleFontByLabelWidth in *. rewrite <- Hs. fold initial in H1 |- *.
  apply shrink_sound in H1. destruct H1 as (k1 & Hk1 & -> & _ & Hfit & _).
  assert (Hfit2 : tooWide C (maxTextWidth img2) (Text textLine) (F64.of_int dpi)
                    (shrunk initial k1) = false).
  { destruct (tooWide C (maxTextWidth img2) _ _ _) eqn:E; [| reflexivity].
    apply (tooWide_antitone C (maxTextWidth img1)) in E; [congruence |].
    rewrite !maxTextWidth_plain by lia. lia. }
  destruct (shrink_returns C (maxTextWidth img2) (Text textLine) (F64.of_int dpi) k1 fuel
              initial
              (calculateFontHeight C initial (F64.to_int (F64.of_int dpi))) Hk1 Hfit2)
    as (k2 & Hk2 & E).
  exists k1, k2. eexists. split; [exact Hk2 |]. split; [reflexivity | exact E].
Qed.

Lemma fitted_monotone_same_scale_witness :
  exists k1 k2 h2,
    (k2 <= k1)%nat
    /\ S754_finite false 6305039478318796 (-52)
       = shrunk (scaleFontByLabelWidth (getBaseFontSize (Size Examples.sixty))
                   (Dx (Bounds (createBlankLabel 200 200)))) k1
    /\ fitted Sample.collaborators 200 (createBlankLabel 300 200) 300 Examples.sixty
       = Some (shrunk (scaleFontByLabelWidth (getBaseFontSize (Size Examples.sixty))
                         (Dx (Bounds (createBlankLabel 200 200)))) k2, h2).
Proof.
  refine (fitted_monotone_same_scale Sample.collaborators 200
            (createBlankLabel 200 200) (createBlankLabel 300 200) 300 Examples.sixty
            (S754_finite false 6305039478318796 (-52)) (F64.of_int 6) _ _ _).
  - vm_compute. split; discriminate.
  - vm_compute. reflexivity.
  - vm_compute. reflexivity.
Defined.

(** A line of 60 letters at 300 dpi: on a label 322 pixels wide it is
    fitted to about 2.42 points, on a label 323 pixels wide to about
    2.33 points.  Both scale factors lie strictly between the clamps. *)
Lemma wider_label_smaller_font :
  exists s1 h1 s2 h2,
    fitted Sample.collaborators 200 (createBlankLabel 322 200) 300 Examples.sixty
    = Some (s1, h1)
    /\ fitted Sample.collaborators 200 (createBlankLabel 323 200) 300 Examples.sixty
       = Some (s2, h2)
    /\ Dx (Bounds (createBlankLabel 322 200)) = 322
    /\ Dx (Bounds (createBlankLabel 323 200)) = 323
    /\ F64.ltb s2 s1 = true
    /\ F64.ltb F64.c1_1 (scaleFactorFor 322) = true
    /\ F64.ltb (scaleFactorFor 323) F64.c2_0 = true.
Proof.
  do 4 eexists.
  split; [vm_compute; reflexivity |].
  split; [vm_compute; reflexivity |].
  split; [vm_compute; reflexivity |].
  split; [vm_compute; reflexivity |].
  split; [vm_compute; reflexivity |].
  split; vm_compute; reflexivity.
Qed.

(* ------------------------------------------------------------------ *)
(** ** A text line that never fits *)

Lemma BR_shape (s : bool) (m : positive) (e : Z) :
  match binary_round 53 1024 s m e with
  | S754_zero s' | S754_infinity s' | S754_finite s' _ _ => s' = s
  | S754_nan => False
  end.
Proof.
  unfold binary_round. destruct (shl_align _ _ _) as [mz ez].
  pose proof (F64Facts.BRA_shape s (Zpos mz) ez loc_Exact ltac:(lia)) as H.
  destruct (binary_round_aux _ _ _ _ _ _); tauto.
Qed.

(** A size below zero stays below zero when 0.1 is taken off. *)
Lemma negative_sub (x : float64) :
  F64.negative x = true -> F64.negative (F64.sub x F64.c0_1) = true.
Proof.
  destruct x as [[] | [] | | [] m e]; try discriminate; intros _; try reflexivity.
  unfold F64.sub, F64.c0_1, F64.prec, F64.emax. cbn [SFsub].
  match goal with
  | |- context [binary_normalize _ _ ?z _ _] =>
      assert (Hz : exists p, z = Zneg p)
  end.
  { cbn [cond_Zopp]. rewrite <- Pos2Z.opp_pos.
    match goal with |- exists p, - Zpos ?a - Zpos ?b = _ => exists (a + b)%positive end.
    lia. }
  destruct Hz as [p ->]. cbn [binary_normalize].
  pose proof (BR_shape true p (Z.min e (-56))) as H.
  destruct (binary_round _ _ _ _ _); cbn [F64.negative]; try tauto.
Qed.

Lemma negative_shrunk (x : float64) (k : nat) :
  F64.negative x = true -> F64.negative (shrunk x k) = true.
Proof.
  revert x. induction k as [| k IH]; intros x H; [exact H |].
  cbn [shrunk]. apply IH. now apply negative_sub.
Qed.

(** The stand-in rasterizer measures a size below zero as 12 points. *)
Lemma sample_measure_negative (size dpi : float64) (text : string) :
  F64.negative size = true ->
  Sample.measure size dpi text = Sample.measure (F64.of_int 12) dpi text.
Proof.
  intros H. unfold Sample.measure, Sample.faceScale.
  replace (Sample.orDefault size 12) with (Sample.orDefault (F64.of_int 12) 12);
    [reflexivity |].
  destruct size as [[] | [] | | [] m e]; try discriminate; reflexivity.
Qed.

Lemma overlong_all_too_wide (j : nat) :
  tooWide Sample.collaborators 570 (Text Examples.overlongLine) (F64.of_int 300)
    (shrunk Examples.overlongInitial j) = true.
Proof.
  destruct (Nat.lt_ge_cases j 167) as [Hj | Hj].
  - revert j Hj. apply forallb_seq. vm_compute. reflexivity.
  - replace j with (167 + (j - 167))%nat by lia. rewrite shrunk_add.
    unfold tooWide. cbn [MeasureString_Ceil Sample.collaborators].
    rewrite sample_measure_negative.
    + vm_compute. reflexivity.
    + apply negative_shrunk. vm_compute. reflexivity.
Qed.

Lemma overlong_never_fitted (fuel : nat) (img : RGBA) :
  Dx (Bounds img) = 590 ->
  fitted Sample.collaborators fuel img 300 Examples.overlongLine = None.
Proof.
  intros H. unfold fitted, getFontSize, maxTextWidth. rewrite H.
  apply shrink_diverges. intros j _. apply overlong_all_too_wide.
Qed.

Lemma GenerateBarcode_stuck (C : Collaborators) (fuel : nat) (input : BarcodeInput)
    (bc : Barcode) (img : RGBA) (barcodeRect : Rectangle) :
  validateInput input = None ->
  encodeBarcode C input = Ok bc ->
  renderLabel C input bc = Ok (img, barcodeRect) ->
  renderTextLines_loop C fuel img (Dpi input) barcodeRect (TextLines input) = None ->
  GenerateBarcode C fuel input = None.
Proof.
  intros Hv He Hr Ht. unfold GenerateBarcode, renderTextLines.
  rewrite Hv, He, Hr, Ht. reflexivity.
Qed.

(** C1, where the code fails it.  On the 50 mm by 30 mm Code128 label at
    300 dpi with a text line of 4000 letters, no size of the sequence
    fits: the sizes go from 16.68 points down past zero, and a size
    below zero is measured as 12 points.  The recursion never reaches
    [drawText], whatever the budget of calls: the pipeline does not
    return and the line is not drawn. *)
Theorem overlong_text_never_drawn (fuel : nat) :
  GenerateBarcode Sample.collaborators fuel Examples.overlong = None.
Proof.
  eapply GenerateBarcode_stuck.
  - reflexivity.
  - reflexivity.
  - vm_compute. reflexivity.
  - change (TextLines Examples.overlong) with [Examples.overlongLine].
    cbn [renderTextLines_loop]. rewrite addTextLine_fitted.
    rewrite overlong_never_fitted; reflexivity.
Qed.

(** On a label less than 20 pixels wide nothing fits either, whatever the
    rasterizer, as long as it measures no width below zero. *)
Lemma narrow_label_never_fitted (C : Collaborators) (fuel : nat) (img : RGBA)
    (dpi : Z) (textLine : TextLine) :
  (forall size res text, 0 <= MeasureString_Ceil C size res text) ->
  0 <= Dx (Bounds img) < 20 ->
  fitted C fuel img dpi textLine = None.
Proof.
  intros Hpos Hw. unfold fitted, getFontSize.
  apply shrink_diverges. intros j _. unfold tooWide. apply Z.ltb_lt.
  rewrite maxTextWidth_plain by lia.
  match goal with |- _ < MeasureString_Ceil C ?s ?d ?t => specialize (Hpos s d t) end.
  lia.
Qed.

(** What is drawn fits: a text line is only ever drawn at a size of its
    sequence whose measured width is within the canvas width less the
    two margins, the first such size. *)
Lemma drawn_text_fits (C : Collaborators) (fuel : nat) (img : RGBA) (dpi : Z)
    (textLine : TextLine) (s h : float64) :
  fitted C fuel img dpi textLine = Some (s, h) ->
  MeasureString_Ceil C s (F64.of_int dpi) (Text textLine) <= maxTextWidth img
  /\ exists k,
       s = shrunk (scaleFontByLabelWidth (getBaseFontSize (Size textLine))
                     (Dx (Bounds img))) k
       /\ forall j, (j < k)%nat ->
            maxTextWidth img
            < MeasureString_Ceil C
                (shrunk (scaleFontByLabelWidth (getBaseFontSize (Size textLine))
                           (Dx (Bounds img))) j)
                (F64.of_int dpi) (Text textLine).
Proof.
  unfold fitted, getFontSize. intros H. apply shrink_sound in H.
  destruct H as (k & _ & -> & _ & Hfit & Hpre). unfold tooWide in *. split.
  - apply Z.ltb_ge. exact Hfit.
  - exists k. split; [reflexivity |]. intros j Hj. apply Z.ltb_lt. now apply Hpre.
Qed.

(* ------------------------------------------------------------------ *)
(** ** The errors of the pipeline *)

Lemma validateInput_type (input : BarcodeInput) :
  validateInput input = None ->
  BarcodeType_ input = BarcodeTypeCode128 \/ BarcodeType_ input = BarcodeTypeQR.
Proof.
  unfold validateInput, validateBarcodeType.
  destruct (validateDPI (Dpi input)); [discriminate |].
  destruct (String.eqb_spec (BarcodeType_ input) BarcodeTypeCode128) as [-> | _];
    [now left |].
  destruct (String.eqb_spec (BarcodeType_ input) BarcodeTypeQR) as [-> | _];
    [now right | discriminate].
Qed.

Lemma validateInput_errors (input : BarcodeInput) (e : error) :
  validateInput input = Some e ->
  e = ErrInvalidDpi (Dpi input) \/ e = ErrInvalidBarcodeType (BarcodeType_ input).
Proof.
  unfold validateInput, validateDPI, validateBarcodeType.
  destruct (existsb _ _).
  - destruct (_ || _); [discriminate |]. intros H. injection H as <-. now right.
  - intros H. injection H as <-. now left.
Qed.









(** A width that is not a number converts to the most negative [int]:
    the scaler is asked for a width that has wrapped around, and when it
    accepts, the canvas cannot be allocated and the pipeline panics. *)
Lemma unsized_label_panics :
  mmToPixels (Width Examples.unsized) (Dpi Examples.unsized) = Int.min_int
  /\ GenerateBarcode Sample.collaborators 1 Examples.unsized
     = Some (Panic "image: NewRGBA Rectangle has huge or negative dimensions").
Proof. split; vm_compute; reflexivity. Qed.

(* ------------------------------------------------------------------ *)
(** ** The text height reserved for a square symbol *)

Lemma to_int_exact (f : float64) :
  match f with S754_finite _ m _ => Zpos m < 2 ^ 53 | _ => True end ->
  F64.exact_int (F64.to_int f).
Proof.
  assert (Hmin : F64.exact_int Int.min_int) by (vm_compute; reflexivity).
  destruct f as [s | s | | s m e]; intros Hm;
    [apply F64Facts.exact_int_small; reflexivity | exact Hmin | exact Hmin |].
  unfold F64.to_int.
  match goal with |- context [if ?c then _ else _] => destruct c end; [| exact Hmin].
  assert (Hcore : F64.exact_int (F64.trunc_mag m e)).
  { rewrite F64Facts.trunc_mag_spec. destruct (Z.ltb_spec e 0) as [He | He].
    - apply F64Facts.exact_int_small.
      assert (0 < 2 ^ (- e)) by (apply Z.pow_pos_nonneg; lia).
      assert (0 <= Zpos m / 2 ^ (- e) <= Zpos m).
      { split; [apply Z.div_pos; lia |]. apply Z.div_le_upper_bound; [lia | nia]. }
      lia.
    - apply F64Facts.exact_int_shift; lia. }
  destruct s; [now apply F64Facts.exact_int_opp | exact Hcore].
Qed.

Lemma mmToPixels_exact (mm : float64) (dpi : Z) : F64.exact_int (mmToPixels mm dpi).
Proof.
  unfold mmToPixels. apply to_int_exact.
  destruct (F64.div _ _) as [s | s | | s m e] eqn:E; try exact I.
  now apply F64Facts.div_finite_bounded in E.
Qed.

Lemma of_int_small (n : Z) : Z.abs n < 2 ^ 53 -> F64.of_int n = F64.canonZ n.
Proof.
  intros H. apply F64Facts.of_int_exact; [now apply F64Facts.exact_int_small | lia].
Qed.

Lemma getFontSize_baseline (C : Collaborators) (size : TextSize) (dpi : Z) :
  getFontSize C size dpi 200
  = (F64.mul (getBaseFontSize size) F64.c1_1,
     calculateFontHeight C (F64.mul (getBaseFontSize size) F64.c1_1) dpi).
Proof.
  unfold getFontSize, scaleFontByLabelWidth.
  rewrite (scaleFactorFor_narrow 200) by lia. reflexivity.
Qed.

Lemma reservedFor_nonneg (C : Collaborators) (dpi : Z) (lines : list TextLine) :
  Forall (fun l => 0 <= baselineLineHeight C dpi l) lines -> 0 <= reservedFor C dpi lines.
Proof.
  induction 1 as [| l lines Hl _ IH]; cbn [reservedFor fold_right]; [lia |].
  fold (reservedFor C dpi lines). lia.
Qed.

Lemma calculateTextHeight_fold (C : Collaborators) (dpi : Z) (lines : list TextLine) :
  forall acc,
    0 <= acc ->
    Forall (fun l => 0 <= baselineLineHeight C dpi l) lines ->
    acc + reservedFor C dpi lines < 2 ^ 53 ->
    fold_left
      (fun totalHeight textLine =>
         F64.add totalHeight
           (F64.mul (snd (getFontSize C (Size textLine) dpi 200)) F64.c2_0))
      lines (F64.canonZ acc)
    = F64.canonZ (acc + reservedFor C dpi lines).
Proof.
  induction lines as [| l lines IH]; intros acc Hacc Hall Hb;
    cbn [fold_left reservedFor fold_right].
  - now rewrite Z.add_0_r.
  - fold (reservedFor C dpi lines) in *.
    inversion Hall as [| ? ? Hl Hrest]; subst.
    pose proof (reservedFor_nonneg C dpi lines Hrest) as Hr.
    cbn [reservedFor fold_right] in Hb. fold (reservedFor C dpi lines) in Hb.
    rewrite getFontSize_baseline. cbn [snd]. unfold calculateFontHeight.
    fold (baselineLineHeight C dpi l).
    set (H := baselineLineHeight C dpi l) in *.
    rewrite of_int_small by lia.
    unfold F64.mul, F64.c2_0, F64.prec, F64.emax.
    rewrite F64Facts.SFmul2_canonZ by lia.
    pose proof (F64Facts.SFadd_sub_canonZ acc (2 * H) false) as Ha.
    cbn beta iota in Ha. unfold F64.add, F64.prec, F64.emax.
    rewrite Ha by lia.
    rewrite IH by (try assumption; lia). f_equal. lia.
Qed.

(** The reserved height is the double of the integer [reservedPixels]. *)
Lemma calculateTextHeight_pixels (C : Collaborators) (input : BarcodeInput) :
  Forall (fun l => 0 <= baselineLineHeight C (Dpi input) l) (TextLines input) ->
  reservedPixels C input < 2 ^ 53 ->
  calculateTextHeight C input = F64.of_int (reservedPixels C input).
Proof.
  intros Hall Hb. unfold calculateTextHeight. change F64.c0_0 with (F64.canonZ 0).
  unfold reservedPixels in *.
  pose proof (reservedFor_nonneg C (Dpi input) (TextLines input) Hall) as Hr.
  rewrite calculateTextHeight_fold by (try assumption; lia).
  rewrite of_int_small by lia. reflexivity.
Qed.

(** C5, as the code has it.  The text height reserved for a square
    symbol is the sum, over the text lines, of twice the line height at
    the size class's base size times 1.1: the size the line would start
    from on a label 200 pixels wide, whatever the width of the label is.
    That is the size the fitting of the line starts from on labels up to
    300 pixels wide. *)
Theorem reserved_text_height (C : Collaborators) (input : BarcodeInput) :
  Forall (fun l => 0 <= baselineLineHeight C (Dpi input) l) (TextLines input) ->
  reservedPixels C input < 2 ^ 53 ->
  calculateTextHeight C input = F64.of_int (reservedPixels C input)
  /\ (forall size dpi,
        getFontSize C size dpi 200
        = (F64.mul (getBaseFontSize size) F64.c1_1,
           calculateFontHeight C (F64.mul (getBaseFontSize size) F64.c1_1) dpi))
  /\ (forall size dpi labelWidth,
        0 <= labelWidth <= 300 ->
        getFontSize C size dpi labelWidth = getFontSize C size dpi 200).
Proof.
  intros Hall Hb. split; [| split].
  - now apply calculateTextHeight_pixels.
  - intros size dpi. apply getFontSize_baseline.
  - intros size dpi labelWidth Hw. unfold getFontSize, scaleFontByLabelWidth.
    rewrite (scaleFactorFor_narrow labelWidth), (scaleFactorFor_narrow 200) by lia.
    reflexivity.
Qed.

Lemma reserved_text_height_witness :
  calculateTextHeight Sample.collaborators Examples.wide
  = F64.of_int (reservedPixels Sample.collaborators Examples.wide)
  /\ (forall size dpi,
        getFontSize Sample.collaborators size dpi 200
        = (F64.mul (getBaseFontSize size) F64.c1_1,
           calculateFontHeight Sample.collaborators
             (F64.mul (getBaseFontSize size) F64.c1_1) dpi))
  /\ (forall size dpi labelWidth,
        0 <= labelWidth <= 300 ->
        getFontSize Sample.collaborators size dpi labelWidth
        = getFontSize Sample.collaborators size dpi 200).
Proof.
  refine (reserved_text_height Sample.collaborators Examples.wide _ _).
  - repeat constructor. apply Z.leb_le. vm_compute. reflexivity.
  - vm_compute. reflexivity.
Defined.

(** On the two-inch QR label, 600 pixels wide, the text line starts at 14
    points, where a line is 59 pixels high; the height reserved for it is
    92 pixels, twice the 46 pixels of a line at 11 points, not twice 59. *)
Lemma reserved_height_is_not_at_the_initial_size :
  exists s0,
    mmToPixels (Width Examples.wide) (Dpi Examples.wide) = 600
    /\ Dx (Bounds (createBlankLabel 600 600)) = 600
    /\ calculateTextHeight Sample.collaborators Examples.wide = F64.of_int 92
    /\ getFontSize Sample.collaborators (Size Examples.wideLine)
         (F64.to_int (F64.of_int 300)) 600 = (s0, F64.of_int 59)
    /\ fitted Sample.collaborators 1 (createBlankLabel 600 600) 300 Examples.wideLine
       = Some (s0, F64.of_int 59)
    /\ F64.ltb (calculateTextHeight Sample.collaborators Examples.wide)
         (F64.mul (F64.of_int 59) F64.c2_0) = true.
Proof.
  eexists.
  split; [vm_compute; reflexivity |].
  split; [vm_compute; reflexivity |].
  split; [vm_compute; reflexivity |].
  split; [vm_compute; reflexivity |].
  split; [vm_compute; reflexivity |].
  vm_compute. reflexivity.
Qed.

(* ------------------------------------------------------------------ *)
(** ** The symbol and the canvas height *)





(* ------------------------------------------------------------------ *)
(** ** Text size classes *)

Lemma getFontSize_base (C : Collaborators) (size size' : TextSize) (dpi labelWidth : Z) :
  getBaseFontSize size = getBaseFontSize size' ->
  getFontSize C size dpi labelWidth = getFontSize C size' dpi labelWidth.
Proof. unfold getFontSize. now intros ->. Qed.

Lemma renderTextLines_loop_base (C : Collaborators) (fuel : nat) (dpi : Z)
    (barcodeRect : Rectangle) (lines lines' : list TextLine) :
  Forall2 sameLine lines lines' ->
  forall img,
    renderTextLines_loop C fuel img dpi barcodeRect lines
    = renderTextLines_loop C fuel img dpi barcodeRect lines'.
Proof.
  induction 1 as [| l l' lines lines' (Ht & Hp & Hb) _ IH]; intros img;
    [reflexivity |].
  cbn [renderTextLines_loop]. unfold addTextLine.
  rewrite (getFontSize_base C _ _ _ _ Hb), Ht, Hp.
  destruct (getFontSize _ _ _ _) as [fontSize fontHeight].
  destruct (addTextLineRecursive _ _ _ _ _ _ _ _ _ _); [apply IH | reflexivity].
Qed.

Lemma calculateTextHeight_base (C : Collaborators) (dpi : Z)
    (lines lines' : list TextLine) :
  Forall2 sameLine lines lines' ->
  forall acc,
    fold_left
      (fun totalHeight textLine =>
         F64.add totalHeight
           (F64.mul (snd (getFontSize C (Size textLine) dpi 200)) F64.c2_0))
      lines acc
    = fold_left
        (fun totalHeight textLine =>
           F64.add totalHeight
             (F64.mul (snd (getFontSize C (Size textLine) dpi 200)) F64.c2_0))
        lines' acc.
Proof.
  induction 1 as [| l l' lines lines' (_ & _ & Hb) _ IH]; intros acc; [reflexivity |].
  cbn [fold_left]. rewrite (getFontSize_base C _ _ _ _ Hb). apply IH.
Qed.

Lemma GenerateBarcode_base (C : Collaborators) (fuel : nat) (data : string)
    (type : BarcodeType) (width height : float64) (dpi : Z)
    (lines lines' : list TextLine) :
  Forall2 sameLine lines lines' ->
  GenerateBarcode C fuel (MkBarcodeInput data type width height dpi lines)
  = GenerateBarcode C fuel (MkBarcodeInput data type width height dpi lines').
Proof.
  intros H.
  unfold GenerateBarcode, validateInput, encodeBarcode, renderLabel, renderTextLines,
    calculateBarcodeSize, calculateQRSize, calculateTextHeight.
  cbn [Dpi BarcodeType_ BarcodeData Width Height TextLines].
  rewrite (calculateTextHeight_base C dpi lines lines' H).
  destruct (validateDPI dpi); [reflexivity |].
  destruct (validateBarcodeType type); [reflexivity |].
  destruct (if String.eqb type BarcodeTypeCode128 then _ else _) as [bc | e | r];
    [| reflexivity | reflexivity].
  destruct (scaleBarcodeToFit C bc _) as [scaled | e | r]; [| reflexivity | reflexivity].
  destruct (createBlankLabel_panics _ _); [reflexivity |].
  rewrite (renderTextLines_loop_base C fuel dpi _ lines lines' H). reflexivity.
Qed.

Lemma sameLine_refl (l : TextLine) : sameLine l l.
Proof. repeat split. Qed.

Lemma Forall2_sameLine_refl (lines : list TextLine) : Forall2 sameLine lines lines.
Proof. induction lines; constructor; auto using sameLine_refl. Qed.

(** C10.  A text size class other than SMALL, MEDIUM and LARGE has the
    base size 10.0, the one of MEDIUM, and a request with such a class on
    a text line is not rejected: the pipeline does on it exactly what it
    does when the line says MEDIUM. *)
Theorem unrecognized_size_is_medium (C : Collaborators) (size : TextSize) :
  size <> TextSizeSmall -> size <> TextSizeMedium -> size <> TextSizeLarge ->
  getBaseFontSize size = F64.c10_0
  /\ getBaseFontSize size = getBaseFontSize TextSizeMedium
  /\ (forall input, validateInput input = validateInput
        (MkBarcodeInput (BarcodeData input) (BarcodeType_ input) (Width input)
           (Height input) (Dpi input) []))
  /\ (forall fuel data type width height dpi before after text position,
        GenerateBarcode C fuel
          (MkBarcodeInput data type width height dpi
             (before ++ MkTextLine text position size :: after))
        = GenerateBarcode C fuel
            (MkBarcodeInput data type width height dpi
               (before ++ MkTextLine text position TextSizeMedium :: after))).
Proof.
  intros Hs Hm Hl.
  assert (Hb : getBaseFontSize size = F64.c10_0).
  { unfold getBaseFontSize.
    destruct (String.eqb_spec size TextSizeSmall); [contradiction |].
    destruct (String.eqb_spec size TextSizeMedium); [contradiction |].
    destruct (String.eqb_spec size TextSizeLarge); [contradiction | reflexivity]. }
  split; [exact Hb |]. split; [exact Hb |]. split; [reflexivity |].
  intros fuel data type width height dpi before after text position.
  apply GenerateBarcode_base. apply Forall2_app.
  - apply Forall2_sameLine_refl.
  - constructor; [| apply Forall2_sameLine_refl].
    repeat split. exact Hb.
Qed.

Lemma unrecognized_size_is_medium_witness :
  getBaseFontSize "HUGE"%string = F64.c10_0
  /\ getBaseFontSize "HUGE"%string = getBaseFontSize TextSizeMedium
  /\ (forall input, validateInput input = validateInput
        (MkBarcodeInput (BarcodeData input) (BarcodeType_ input) (Width input)
           (Height input) (Dpi input) []))
  /\ (forall fuel data type width height dpi before after text position,
        GenerateBarcode Sample.collaborators fuel
          (MkBarcodeInput data type width height dpi
             (before ++ MkTextLine text position "HUGE"%string :: after))
        = GenerateBarcode Sample.collaborators fuel
            (MkBarcodeInput data type width height dpi
               (before ++ MkTextLine text position TextSizeMedium :: after))).
Proof.
  refine (unrecognized_size_is_medium Sample.collaborators "HUGE"%string _ _ _);
    discriminate.
Defined.

(* ------------------------------------------------------------------ *)
(** * Further properties of the package *)

(** ** Validation *)

(** X1.  [validateInput] accepts a request exactly when its resolution is
    203, 300 or 600 and its barcode type is CODE128 or QR, spelled so;
    the resolution is looked at first, so that a request wrong in both
    gets the resolution error. *)
Theorem validateInput_spec (input : BarcodeInput) :
  let dpiOk := Dpi input = 203 \/ Dpi input = 300 \/ Dpi input = 600 in
  let typeOk :=
    BarcodeType_ input = "CODE128"%string \/ BarcodeType_ input = "QR"%string in
  (validateInput input = None <-> dpiOk /\ typeOk)
  /\ (validateInput input = Some (ErrInvalidDpi (Dpi input)) <-> ~ dpiOk)
  /\ (validateInput input = Some (ErrInvalidBarcodeType (BarcodeType_ input))
      <-> dpiOk /\ ~ typeOk).
Proof.
  intros dpiOk typeOk. unfold validateInput.
  pose proof (validateDPI_accepts (Dpi input)) as Hd. fold dpiOk in Hd.
  assert (Ht : validateBarcodeType (BarcodeType_ input) = None <-> typeOk).
  { unfold validateBarcodeType, typeOk.
    destruct (String.eqb_spec (BarcodeType_ input) BarcodeTypeCode128) as [E1 | N1];
      [cbn [orb]; split; [now left | reflexivity] |].
    destruct (String.eqb_spec (BarcodeType_ input) BarcodeTypeQR) as [E2 | N2];
      [cbn [orb]; split; [now right | reflexivity] |].
    cbn [orb]. split; [discriminate | intros [H | H]; contradiction]. }
  assert (Hde : validateDPI (Dpi input) = None
                \/ validateDPI (Dpi input) = Some (ErrInvalidDpi (Dpi input))).
  { unfold validateDPI. destruct (existsb _ _); auto. }
  assert (Hte : validateBarcodeType (BarcodeType_ input) = None
                \/ validateBarcodeType (BarcodeType_ input)
                   = Some (ErrInvalidBarcodeType (BarcodeType_ input))).
  { unfold validateBarcodeType. destruct (_ || _); auto. }
  destruct Hde as [Ed | Ed]; rewrite Ed.
  - assert (dpiOk) by now apply Hd.
    destruct Hte as [Et | Et]; rewrite Et.
    + assert (typeOk) by now apply Ht.
      repeat split; try tauto; try discriminate.
    + assert (~ typeOk) by (intros Hc; apply Ht in Hc; congruence).
      repeat split; try tauto; try discriminate.
  - assert (~ dpiOk) by (intros Hc; apply Hd in Hc; congruence).
    repeat split; try tauto; try discriminate.
Qed.

(** X3.  After validation the encoder dispatch never takes its default
    branch: the pipeline never returns the unsupported-type error. *)
Theorem unsupported_type_is_unreachable (C : Collaborators) (fuel : nat)
    (input : BarcodeInput) (t : BarcodeType) :
  (validateInput input = None ->
   encodeBarcode C input = Err (ErrUnsupportedBarcodeType t) -> False)
  /\ (GenerateBarcode C fuel input = Some (Err (ErrUnsupportedBarcodeType t)) -> False).
Proof.
  assert (He : validateInput input = None ->
               encodeBarcode C input = Err (ErrUnsupportedBarcodeType t) -> False).
  { intros Hv. apply validateInput_type in Hv. unfold encodeBarcode.
    destruct Hv as [-> | ->]; cbn [String.eqb Ascii.eqb Bool.eqb].
    - unfold encodeCode128. destruct (code128_Encode C _); discriminate.
    - unfold encodeQRCode. destruct (qr_Encode C _); discriminate. }
  split; [exact He |].
  unfold GenerateBarcode.
  destruct (validateInput input) as [ev |] eqn:Ev.
  - intros H. injection H as H. apply validateInput_errors in Ev.
    destruct Ev as [-> | ->]; discriminate.
  - destruct (encodeBarcode C input) as [bc | eb | r] eqn:Eb.
    + unfold renderLabel, scaleBarcodeToFit.
      destruct (barcode_Scale C bc _ _); [| intros H; discriminate].
      destruct (createBlankLabel_panics _ _); [discriminate |].
      unfold renderTextLines.
      destruct (renderTextLines_loop _ _ _ _ _ _); [| discriminate].
      unfold generateOutputFormats. destruct (imageToBase64 C _); discriminate.
    + intros H. injection H as ->. now apply He.
    + discriminate.
Qed.

(** ** Placing the symbol *)

Lemma image_Rect_nonneg (w h : Z) :
  0 <= w -> 0 <= h -> image_Rect 0 0 w h = MkRect (Pt 0 0) (Pt w h).
Proof.
  intros Hw Hh. unfold image_Rect.
  destruct (Z.ltb_spec w 0); [lia |]. destruct (Z.ltb_spec h 0); [lia |]. reflexivity.
Qed.

Lemma centerBarcodeOnLabel_rect (img : RGBA) (bc : Barcode) (W H w h : Z) :
  Bounds img = image_Rect 0 0 W H -> bcBounds bc = image_Rect 0 0 w h ->
  0 <= w <= W -> 0 <= h <= H -> W <= Int.max_int -> H <= Int.max_int ->
  centerBarcodeOnLabel img bc
  = MkRect (Pt ((W - w) / 2) ((H - h) / 2))
      (Pt ((W - w) / 2 + w) ((H - h) / 2 + h)).
Proof.
  intros Hi Hb Hw Hh HW HH.
  rewrite image_Rect_nonneg in Hi, Hb by lia.
  unfold centerBarcodeOnLabel, Rectangle_Add, Dx, Dy. rewrite Hi, Hb.
  cbn [X Y Min Max].
  pose proof (Z.div_pos (W - w) 2 ltac:(lia) ltac:(lia)).
  pose proof (Z.div_pos (H - h) 2 ltac:(lia) ltac:(lia)).
  pose proof (Z.div_le_upper_bound (W - w) 2 (W - w) ltac:(lia) ltac:(lia)).
  pose proof (Z.div_le_upper_bound (H - h) 2 (H - h) ltac:(lia) ltac:(lia)).
  rewrite (IntFacts.sub_id W 0), (IntFacts.sub_id H 0), (IntFacts.sub_id w 0),
    (IntFacts.sub_id h 0)
    by (unfold Int.in_range, Int.min_int, Int.max_int in *; lia).
  rewrite !Z.sub_0_r.
  rewrite (IntFacts.sub_id W w), (IntFacts.sub_id H h)
    by (unfold Int.in_range, Int.min_int, Int.max_int in *; lia).
  rewrite !IntFacts.quo_id
    by (rewrite Z.quot_div_nonneg by lia;
        unfold Int.in_range, Int.min_int, Int.max_int in *; lia).
  rewrite !Z.quot_div_nonneg by lia.
  rewrite !IntFacts.add_id
    by (unfold Int.in_range, Int.min_int, Int.max_int in *; lia).
  rewrite !Z.add_0_l. f_equal. f_equal; lia.
Qed.

(** X4.  A symbol that is no larger than the label, both with their
    bounds at the origin, is centred: it keeps its width and height, it
    lies within the label, and the margin left over on the right (at the
    bottom) is the one on the left (at the top) or one pixel more. *)
Theorem centerBarcodeOnLabel_centred (img : RGBA) (bc : Barcode) (W H w h : Z) :
  Bounds img = image_Rect 0 0 W H -> bcBounds bc = image_Rect 0 0 w h ->
  0 <= w <= W -> 0 <= h <= H -> W <= Int.max_int -> H <= Int.max_int ->
  let r := centerBarcodeOnLabel img bc in
  r = MkRect (Pt ((W - w) / 2) ((H - h) / 2))
        (Pt ((W - w) / 2 + w) ((H - h) / 2 + h))
  /\ Dx r = w /\ Dy r = h
  /\ 0 <= X (Min r) /\ X (Max r) <= W
  /\ 0 <= Y (Min r) /\ Y (Max r) <= H
  /\ 0 <= (W - X (Max r)) - X (Min r) <= 1
  /\ 0 <= (H - Y (Max r)) - Y (Min r) <= 1.
Proof.
  intros Hi Hb Hw Hh HW HH r.
  assert (Er : r = MkRect (Pt ((W - w) / 2) ((H - h) / 2))
                     (Pt ((W - w) / 2 + w) ((H - h) / 2 + h)))
    by now apply centerBarcodeOnLabel_rect.
  split; [exact Er |]. rewrite Er. unfold Dx, Dy. cbn [X Y Min Max].
  pose proof (Z.div_mod (W - w) 2 ltac:(lia)) as DW.
  pose proof (Z.mod_pos_bound (W - w) 2 ltac:(lia)) as MW.
  pose proof (Z.div_mod (H - h) 2 ltac:(lia)) as DH.
  pose proof (Z.mod_pos_bound (H - h) 2 ltac:(lia)) as MH.
  rewrite !IntFacts.sub_id
    by (unfold Int.in_range, Int.min_int, Int.max_int in *; lia).
  repeat split; lia.
Qed.

Lemma centerBarcodeOnLabel_centred_witness :
  let r := centerBarcodeOnLabel (createBlankLabel 354 118)
             (MkBarcode "1234567890" 1 (image_Rect 0 0 334 59)) in
  r = MkRect (Pt ((354 - 334) / 2) ((118 - 59) / 2))
        (Pt ((354 - 334) / 2 + 334) ((118 - 59) / 2 + 59))
  /\ Dx r = 334 /\ Dy r = 59
  /\ 0 <= X (Min r) /\ X (Max r) <= 354
  /\ 0 <= Y (Min r) /\ Y (Max r) <= 118
  /\ 0 <= (354 - X (Max r)) - X (Min r) <= 1
  /\ 0 <= (118 - Y (Max r)) - Y (Min r) <= 1.
Proof.
  refine (centerBarcodeOnLabel_centred (createBlankLabel 354 118)
            (MkBarcode "1234567890" 1 (image_Rect 0 0 334 59)) 354 118 334 59
            _ _ _ _ _ _).
  - reflexivity.
  - reflexivity.
  - split; apply Z.leb_le; reflexivity.
  - split; apply Z.leb_le; reflexivity.
  - apply Z.leb_le. reflexivity.
  - apply Z.leb_le. reflexivity.
Defined.

(** ** Rendering the text lines *)

Lemma drawText_op (C : Collaborators) (img : RGBA) (text : string) (centerX baseY : Z)
    (fontSize fontHeight dpi : float64) (position : TextPosition) (col : Color) :
  drawText C img text centerX baseY fontSize fontHeight dpi position col
  = paint img (drawTextOp C text centerX baseY fontSize fontHeight dpi position col).
Proof. reflexivity. Qed.

Lemma fitted_bounds (C : Collaborators) (fuel : nat) (img1 img2 : RGBA) (dpi : Z)
    (textLine : TextLine) :
  Bounds img1 = Bounds img2 ->
  fitted C fuel img1 dpi textLine = fitted C fuel img2 dpi textLine.
Proof. unfold fitted, maxTextWidth. now intros ->. Qed.

(** One step of the loop over the text lines. *)
Lemma renderTextLines_loop_cons (C : Collaborators) (fuel : nat) (img : RGBA)
    (dpi : Z) (barcodeRect : Rectangle) (l : TextLine) (rest : list TextLine) :
  renderTextLines_loop C fuel img dpi barcodeRect (l :: rest)
  = match fitted C fuel img dpi l with
    | Some f =>
        renderTextLines_loop C fuel
          (paint img (lineOp C (Bounds img) barcodeRect dpi l f)) dpi barcodeRect rest
    | None => None
    end.
Proof.
  cbn [renderTextLines_loop]. rewrite addTextLine_fitted.
  destruct (fitted C fuel img dpi l) as [[s h] |]; reflexivity.
Qed.

Lemma renderTextLines_loop_spec (C : Collaborators) (fuel : nat) (dpi : Z)
    (barcodeRect : Rectangle) (lines : list TextLine) :
  forall img img',
    renderTextLines_loop C fuel img dpi barcodeRect lines = Some img'
    <-> exists fits,
          Forall2 (fun l f => fitted C fuel img dpi l = Some f) lines fits
          /\ img' = MkRGBA (Bounds img)
                      (Ops img
                       ++ map (fun lf => lineOp C (Bounds img) barcodeRect dpi
                                           (fst lf) (snd lf))
                            (combine lines fits)).
Proof.
  induction lines as [| l rest IH]; intros img img'.
  - cbn [renderTextLines_loop]. split.
    + intros H. injection H as <-. exists []. split; [constructor |].
      cbn [combine map]. rewrite app_nil_r. now destruct img.
    + intros (fits & Hf & ->). inversion Hf; subst.
      cbn [combine map]. rewrite app_nil_r. now destruct img.
  - rewrite renderTextLines_loop_cons. split.
    + destruct (fitted C fuel img dpi l) as [f |] eqn:Ef; [| discriminate].
      intros H. apply IH in H. destruct H as (fits & Hf & ->).
      exists (f :: fits). split.
      * constructor; [exact Ef |].
        eapply Forall2_impl; [| exact Hf]. intros l' f' H'.
        cbn beta in H'. rewrite <- H'. now apply fitted_bounds.
      * cbn [paint Bounds Ops combine map fst snd]. rewrite <- app_assoc. reflexivity.
    + intros (fits & Hf & ->). inversion Hf as [| ? f ? fits' Ef Hrest]; subst.
      rewrite Ef. apply IH. exists fits'. split.
      * eapply Forall2_impl; [| exact Hrest]. intros l' f' H'.
        cbn beta in H'. rewrite <- H'. now apply fitted_bounds.
      * cbn [paint Bounds Ops combine map fst snd]. rewrite <- app_assoc. reflexivity.
Qed.

(** X5.  Rendering the text lines returns exactly when every line can be
    fitted on the label; it leaves the bounds of the label and what is on
    it as they are, and adds one text per line, in the order of the
    request, each at the size and line height the line is fitted to on
    the label as it was handed in. *)
Theorem renderTextLines_draws_each_line (C : Collaborators) (fuel : nat) (img img' : RGBA)
    (dpi : Z) (barcodeRect : Rectangle) (lines : list TextLine) :
  renderTextLines_loop C fuel img dpi barcodeRect lines = Some img'
  <-> exists fits,
        Forall2 (fun l f => fitted C fuel img dpi l = Some f) lines fits
        /\ Bounds img' = Bounds img
        /\ Ops img'
           = Ops img
             ++ map (fun lf => lineOp C (Bounds img) barcodeRect dpi (fst lf) (snd lf))
                  (combine lines fits).
Proof.
  rewrite renderTextLines_loop_spec. split.
  - intros (fits & Hf & ->). exists fits. repeat split. exact Hf.
  - intros (fits & Hf & Hb & Ho). exists fits. split; [exact Hf |].
    destruct img' as [b o]. cbn [Bounds Ops] in *. now subst.
Qed.

Lemma nth_error_map_combine_mid {A B D : Type} (g : A * B -> D)
    (xs : list A) (ys : list B) (x : A) (y : B) (xs' : list A) (ys' : list B) :
  List.length xs = List.length ys ->
  nth_error (map g (combine (xs ++ x :: xs') (ys ++ y :: ys'))) (List.length xs)
  = Some (g (x, y)).
Proof.
  revert ys. induction xs as [| a xs IH]; intros [| b ys] H; try discriminate.
  - reflexivity.
  - cbn. apply IH. now injection H.
Qed.

(** X6.  A text line is placed with no regard to the lines before it:
    what is drawn for it, in its place among the paint operations, is
    what is drawn for it when it is the only line.  Lines with the same
    position are anchored to the same edge of the symbol, not stacked. *)
Theorem text_lines_are_placed_independently (C : Collaborators) (fuel : nat)
    (img img' : RGBA) (dpi : Z) (barcodeRect : Rectangle)
    (before after : list TextLine) (l : TextLine) :
  renderTextLines_loop C fuel img dpi barcodeRect (before ++ l :: after) = Some img' ->
  exists op,
    renderTextLines_loop C fuel img dpi barcodeRect [l] = Some (paint img op)
    /\ nth_error (Ops img') (List.length (Ops img) + List.length before) = Some op.
Proof.
  intros H. apply renderTextLines_loop_spec in H. destruct H as (fits & Hf & ->).
  apply Forall2_app_inv_l in Hf.
  destruct Hf as (fb & fr & Hb & Hr & ->).
  inversion Hr as [| ? f ? fa Ef Ha]; subst.
  exists (lineOp C (Bounds img) barcodeRect dpi l f). split.
  - rewrite renderTextLines_loop_cons, Ef. reflexivity.
  - cbn [Ops]. rewrite nth_error_app2 by lia.
    replace (List.length (Ops img) + List.length before - List.length (Ops img))%nat
      with (List.length before) by lia.
    assert (Hl : List.length before = List.length fb) by (eapply Forall2_length; eassumption).
    now apply nth_error_map_combine_mid.
Qed.

Lemma text_lines_are_placed_independently_witness :
  exists op,
    renderTextLines_loop Sample.collaborators 1 (createBlankLabel 354 118) 300
      (MkRect (Pt 10 29) (Pt 344 88)) [Examples.belowLine]
    = Some (paint (createBlankLabel 354 118) op)
    /\ nth_error
         (Ops (MkRGBA (image_Rect 0 0 354 118)
                 (Ops (createBlankLabel 354 118)
                  ++ map (fun lf => lineOp Sample.collaborators (image_Rect 0 0 354 118)
                                      (MkRect (Pt 10 29) (Pt 344 88)) 300 (fst lf) (snd lf))
                       (combine [Examples.belowLine; Examples.belowLine]
                          [(S754_finite false 6496442462481940 (-49), F64.of_int 49);
                           (S754_finite false 6496442462481940 (-49), F64.of_int 49)]))))
         (List.length (Ops (createBlankLabel 354 118)) + List.length [Examples.belowLine])
       = Some op.
Proof.
  refine (text_lines_are_placed_independently Sample.collaborators 1
            (createBlankLabel 354 118) _ 300 (MkRect (Pt 10 29) (Pt 344 88))
            [Examples.belowLine] [] Examples.belowLine _).
  vm_compute. reflexivity.
Defined.

Lemma quo_nonneg (a : Z) : 0 <= a <= Int.max_int -> Int.quo a 2 = a / 2.
Proof.
  intros Ha. unfold Int.quo. cbn -[Z.quot Int.wrap].
  rewrite Z.quot_div_nonneg by lia.
  assert (0 <= a / 2 <= a) by (split; [apply Z.div_pos; lia | apply Z.div_le_upper_bound; lia]).
  rewrite IntFacts.wrap_id; [reflexivity |]. unfold Int.in_range, Int.min_int.
  unfold Int.max_int in *. lia.
Qed.

(** X7.  A text line that is drawn on a label with its bounds at the
    origin is centred between the two 10-pixel margins: measured at the
    size it is drawn at, it starts at or after the left margin and ends
    at or before the right one. *)
Theorem drawn_text_between_margins (C : Collaborators) (fuel : nat) (img : RGBA)
    (W H dpi : Z) (barcodeRect : Rectangle) (textLine : TextLine)
    (fit : float64 * float64) :
  Bounds img = image_Rect 0 0 W H ->
  0 <= W <= Int.max_int -> 0 <= H ->
  0 <= MeasureString_Ceil C (fst fit) (F64.of_int dpi) (Text textLine) ->
  fitted C fuel img dpi textLine = Some fit ->
  let textWidth := MeasureString_Ceil C (fst fit) (F64.of_int dpi) (Text textLine) in
  exists x y,
    lineOp C (Bounds img) barcodeRect dpi textLine fit
    = DrawString (Text textLine) (Pt x y) (fst fit) (F64.of_int dpi) Black
    /\ x = W / 2 - textWidth / 2
    /\ labelMarginPixels <= x
    /\ x + textWidth <= W - labelMarginPixels.
Proof.
  intros Hb HW HH Hm Hf tw. destruct fit as [s h]. cbn [fst snd] in *.
  pose proof (drawn_text_fits _ _ _ _ _ _ _ Hf) as [Hfit _]. fold tw in Hfit.
  assert (HDx : Dx (Bounds img) = W).
  { rewrite Hb, image_Rect_nonneg by lia. unfold Dx. cbn [Max Min X].
    unfold Int.sub. rewrite Z.sub_0_r. apply IntFacts.wrap_id.
    unfold Int.in_range, Int.min_int. unfold Int.max_int in *. lia. }
  rewrite maxTextWidth_plain in Hfit by (rewrite HDx; lia). rewrite HDx in Hfit.
  unfold lineOp, drawTextOp. cbn [fst snd]. fold tw. rewrite HDx.
  do 2 eexists. split; [reflexivity |].
  rewrite !quo_nonneg by (unfold Int.max_int in *; lia).
  assert (H1 : 0 <= tw / 2) by (apply Z.div_pos; lia).
  pose proof (Z.div_mod W 2 ltac:(lia)) as HWd.
  pose proof (Z.mod_pos_bound W 2 ltac:(lia)) as HWm.
  pose proof (Z.div_mod tw 2 ltac:(lia)) as Htd.
  pose proof (Z.mod_pos_bound tw 2 ltac:(lia)) as Htm.
  assert (Hx : Int.sub (W / 2) (tw / 2) = W / 2 - tw / 2).
  { unfold Int.sub. apply IntFacts.wrap_id.
    unfold Int.in_range, Int.min_int. unfold Int.max_int in *. lia. }
  rewrite Hx. unfold labelMarginPixels. repeat split; lia.
Qed.

Lemma drawn_text_between_margins_witness :
  let textWidth :=
    MeasureString_Ceil Sample.collaborators
      (fst (S754_finite false 6496442462481940 (-49), F64.of_int 49))
      (F64.of_int 300) (Text Examples.belowLine) in
  exists x y,
    lineOp Sample.collaborators (Bounds (createBlankLabel 354 118))
      (MkRect (Pt 10 29) (Pt 344 88)) 300 Examples.belowLine
      (S754_finite false 6496442462481940 (-49), F64.of_int 49)
    = DrawString (Text Examples.belowLine) (Pt x y)
        (fst (S754_finite false 6496442462481940 (-49), F64.of_int 49))
        (F64.of_int 300) Black
    /\ x = 354 / 2 - textWidth / 2
    /\ labelMarginPixels <= x
    /\ x + textWidth <= 354 - labelMarginPixels.
Proof.
  refine (drawn_text_between_margins Sample.collaborators 1 (createBlankLabel 354 118)
            354 118 300 (MkRect (Pt 10 29) (Pt 344 88)) Examples.belowLine
            (S754_finite false 6496442462481940 (-49), F64.of_int 49) _ _ _ _ _).
  - reflexivity.
  - split; apply Z.leb_le; reflexivity.
  - apply Z.leb_le. reflexivity.
  - apply Z.leb_le. vm_compute. reflexivity.
  - vm_compute. reflexivity.
Defined.

(** X8.  Where a drawn text line is put for the positions other than
    BELOW.  A line with position ABOVE has its baseline at the top edge
    of the symbol rectangle less the integer half of its fitted line
    height.  A line whose position is neither ABOVE nor BELOW is not
    refused: it is drawn with its baseline on the bottom edge of the
    symbol rectangle, with no offset. *)
Theorem text_position_above_or_unknown (C : Collaborators) (fuel : nat) (img img' : RGBA)
    (dpi centerX : Z) (barcodeRect : Rectangle) (textLine : TextLine) :
  Position textLine <> TextPositionBelow ->
  addTextLine C fuel img (Text textLine) centerX
    (calculateTextYPosition barcodeRect (Position textLine))
    (Size textLine) (F64.of_int dpi) (Position textLine) = Some img' ->
  exists s h x,
    fitted C fuel img dpi textLine = Some (s, h)
    /\ lastOp img'
       = Some (DrawString (Text textLine)
                 (Pt x (if String.eqb (Position textLine) TextPositionAbove
                        then Int.sub (Y (Min barcodeRect)) (Int.quo (F64.to_int h) 2)
                        else Y (Max barcodeRect)))
                 s (F64.of_int dpi) Black).
Proof.
  intros Hpos. rewrite addTextLine_fitted.
  destruct (fitted C fuel img dpi textLine) as [[s h] |] eqn:Ef; [| discriminate].
  intros H. injection H as <-.
  exists s, h. eexists. split; [reflexivity |].
  unfold drawText, calculateTextYPosition. rewrite lastOp_paint.
  destruct (String.eqb_spec (Position textLine) TextPositionAbove) as [Ha | Ha];
    [reflexivity |].
  destruct (String.eqb_spec (Position textLine) TextPositionBelow) as [Hb | Hb];
    [contradiction | reflexivity].
Qed.

Lemma text_position_above_or_unknown_witness :
  exists s h x,
    fitted Sample.collaborators 1 (createBlankLabel 600 400) 300
      Examples.middleLine = Some (s, h)
    /\ lastOp
         (drawText Sample.collaborators (createBlankLabel 600 400)
            (Text Examples.middleLine) 300
            (calculateTextYPosition Examples.symbolRect (Position Examples.middleLine))
            (S754_finite false 7881299347898368 (-49)) (F64.of_int 59)
            (F64.of_int 300) (Position Examples.middleLine) Black)
       = Some (DrawString (Text Examples.middleLine)
                 (Pt x (if String.eqb
                             (Position Examples.middleLine)
                             TextPositionAbove
                        then Int.sub (Y (Min Examples.symbolRect)) (Int.quo (F64.to_int h) 2)
                        else Y (Max Examples.symbolRect)))
                 s (F64.of_int 300) Black).
Proof.
  refine (text_position_above_or_unknown Sample.collaborators 1 (createBlankLabel 600 400)
            _ 300 300 Examples.symbolRect
            Examples.middleLine _ _).
  - discriminate.
  - vm_compute. reflexivity.
Defined.

(** X9.  The size a drawn text line is drawn at is the first of the
    sizes tried that fits: the initial size less some number of
    decrements of 0.1 point, measured no wider than the label less its
    two margins, every size tried before it being too wide.  Drawing
    adds that one text to the label and changes nothing else. *)
Theorem drawn_text_size_is_first_fit (C : Collaborators) (fuel : nat) (img img' : RGBA)
    (dpi centerX baseY : Z) (textLine : TextLine) :
  addTextLine C fuel img (Text textLine) centerX baseY (Size textLine)
    (F64.of_int dpi) (Position textLine) = Some img' ->
  let initial :=
    scaleFontByLabelWidth (getBaseFontSize (Size textLine)) (Dx (Bounds img)) in
  let width := fun size => MeasureString_Ceil C size (F64.of_int dpi) (Text textLine) in
  exists k pt,
    Bounds img' = Bounds img
    /\ Ops img'
       = Ops img
         ++ [DrawString (Text textLine) pt (shrunk initial k) (F64.of_int dpi) Black]
    /\ width (shrunk initial k) <= maxTextWidth img
    /\ forall j, (j < k)%nat -> maxTextWidth img < width (shrunk initial j).
Proof.
  rewrite addTextLine_fitted.
  destruct (fitted C fuel img dpi textLine) as [[s h] |] eqn:Ef; [| discriminate].
  intros H. injection H as <-. intros initial width.
  destruct (drawn_text_fits _ _ _ _ _ _ _ Ef) as (Hfit & k & -> & Hk).
  exists k. eexists. split; [reflexivity |]. split; [reflexivity |].
  split; [exact Hfit | exact Hk].
Qed.

Lemma drawn_text_size_is_first_fit_witness :
  let initial :=
    scaleFontByLabelWidth (getBaseFontSize (Size Examples.belowLine))
      (Dx (Bounds (createBlankLabel 600 400))) in
  let width := fun size =>
    MeasureString_Ceil Sample.collaborators size (F64.of_int 300)
      (Text Examples.belowLine) in
  exists k pt,
    Bounds Examples.belowDrawn = Bounds (createBlankLabel 600 400)
    /\ Ops Examples.belowDrawn
       = Ops (createBlankLabel 600 400)
         ++ [DrawString (Text Examples.belowLine) pt (shrunk initial k)
               (F64.of_int 300) Black]
    /\ width (shrunk initial k) <= maxTextWidth (createBlankLabel 600 400)
    /\ forall j, (j < k)%nat ->
         maxTextWidth (createBlankLabel 600 400) < width (shrunk initial j).
Proof.
  refine (drawn_text_size_is_first_fit Sample.collaborators 1 (createBlankLabel 600 400)
            Examples.belowDrawn 300 300
            (calculateTextYPosition Examples.symbolRect (Position Examples.belowLine))
            Examples.belowLine _).
  vm_compute. reflexivity.
Defined.

(** ** The pipeline as a whole *)

Lemma Bounds_createBlankLabel (w h : Z) :
  Bounds (createBlankLabel w h) = image_Rect 0 0 w h.
Proof. reflexivity. Qed.

(** X10.  What a successful answer is made from.  The label is a canvas
    of the pixel size of the request, painted white, then with the
    scaled symbol on its centred rectangle, then with one text per text
    line in the order of the request, and nothing else; the PNG and the
    ZPL of the answer are both made from that one label. *)
Theorem answer_is_made_from_one_label (C : Collaborators) (fuel : nat)
    (input : BarcodeInput) (out : BarcodeOutput) :
  let labelWidth := mmToPixels (Width input) (Dpi input) in
  let labelHeight := mmToPixels (Height input) (Dpi input) in
  let size := calculateBarcodeSize C input labelWidth labelHeight in
  let canvas := image_Rect 0 0 labelWidth labelHeight in
  GenerateBarcode C fuel input = Some (Ok out) ->
  exists bc scaled fits img,
    encodeBarcode C input = Ok bc
    /\ barcode_Scale C bc (X size) (Y size) = inl scaled
    /\ Forall2 (fun l f =>
                  fitted C fuel (createBlankLabel labelWidth labelHeight) (Dpi input) l
                  = Some f)
         (TextLines input) fits
    /\ Bounds img = canvas
    /\ Ops img
       = FillUniform canvas White
         :: DrawOver (centerBarcodeOnLabel (createBlankLabel labelWidth labelHeight) scaled)
              scaled (Min (bcBounds scaled))
         :: map (fun lf =>
                   lineOp C canvas
                     (centerBarcodeOnLabel (createBlankLabel labelWidth labelHeight) scaled)
                     (Dpi input) (fst lf) (snd lf))
              (combine (TextLines input) fits)
    /\ imageToBase64 C img = inl (ImageBase64 out)
    /\ imageToZPL C img = ZPL out.
Proof.
  intros W H size canvas. unfold GenerateBarcode.
  destruct (validateInput input); [discriminate |].
  destruct (encodeBarcode C input) as [bc | e | r] eqn:Ee; [| discriminate ..].
  unfold renderLabel, scaleBarcodeToFit. fold W H size.
  destruct (barcode_Scale C bc (X size) (Y size)) as [scaled | e] eqn:Es; [| discriminate].
  destruct (createBlankLabel_panics W H); [discriminate |].
  unfold renderTextLines.
  destruct (renderTextLines_loop C fuel _ (Dpi input) _ (TextLines input))
    as [img |] eqn:Et; [| discriminate].
  apply renderTextLines_loop_spec in Et. destruct Et as (fits & Hf & Hi).
  unfold generateOutputFormats.
  destruct (imageToBase64 C img) as [b64 | e] eqn:Eb; [| discriminate].
  intros Ho. injection Ho as <-.
  exists bc, scaled, fits, img. split; [first [reflexivity | exact Ee] |].
  split; [first [reflexivity | exact Es] |].
  split.
  { eapply Forall2_impl; [| exact Hf]. intros l f Hl. cbn beta in Hl.
    rewrite <- Hl. now apply fitted_bounds. }
  subst img. cbn [Bounds Ops drawBarcodeOnLabel paint createBlankLabel app] in *.
  repeat split. exact Eb.
Qed.

Lemma answer_is_made_from_one_label_witness :
  let labelWidth := mmToPixels (Width Examples.flat) (Dpi Examples.flat) in
  let labelHeight := mmToPixels (Height Examples.flat) (Dpi Examples.flat) in
  let size := calculateBarcodeSize Sample.collaborators Examples.flat labelWidth labelHeight in
  let canvas := image_Rect 0 0 labelWidth labelHeight in
  exists bc scaled fits img,
    encodeBarcode Sample.collaborators Examples.flat = Ok bc
    /\ barcode_Scale Sample.collaborators bc (X size) (Y size) = inl scaled
    /\ Forall2 (fun l f =>
                  fitted Sample.collaborators 0 (createBlankLabel labelWidth labelHeight)
                    (Dpi Examples.flat) l
                  = Some f)
         (TextLines Examples.flat) fits
    /\ Bounds img = canvas
    /\ Ops img
       = FillUniform canvas White
         :: DrawOver (centerBarcodeOnLabel (createBlankLabel labelWidth labelHeight) scaled)
              scaled (Min (bcBounds scaled))
         :: map (fun lf =>
                   lineOp Sample.collaborators canvas
                     (centerBarcodeOnLabel (createBlankLabel labelWidth labelHeight) scaled)
                     (Dpi Examples.flat) (fst lf) (snd lf))
              (combine (TextLines Examples.flat) fits)
    /\ imageToBase64 Sample.collaborators img
       = inl (ImageBase64 (MkBarcodeOutput "PNG" "^XA^XZ"))
    /\ imageToZPL Sample.collaborators img = ZPL (MkBarcodeOutput "PNG" "^XA^XZ").
Proof.
  refine (answer_is_made_from_one_label Sample.collaborators 0 Examples.flat
            (MkBarcodeOutput "PNG" "^XA^XZ") _).
  vm_compute. reflexivity.
Defined.



(** X13.  On a label narrower than its two margins no text line is ever
    drawn: as long as the rasterizer measures the sizes tried as
    non-negative widths, every one of them is too wide, and the
    recursion does not come to an end within the budget of calls. *)
Theorem narrow_label_text_never_drawn (C : Collaborators) (fuel : nat) (img : RGBA)
    (dpi centerX baseY : Z) (textLine : TextLine) :
  0 <= Dx (Bounds img) < 2 * labelMarginPixels ->
  forallb (fun j =>
             0 <=? MeasureString_Ceil C
                     (shrunk (scaleFontByLabelWidth (getBaseFontSize (Size textLine))
                                (Dx (Bounds img))) j)
                     (F64.of_int dpi) (Text textLine))
    (seq 0 fuel) = true ->
  addTextLine C fuel img (Text textLine) centerX baseY (Size textLine)
    (F64.of_int dpi) (Position textLine) = None.
Proof.
  intros Hw Hall. rewrite addTextLine_fitted.
  assert (Ef : fitted C fuel img dpi textLine = None).
  { unfold fitted, getFontSize. apply shrink_diverges. intros j Hj.
    pose proof (forallb_seq _ _ Hall j Hj) as Hm. cbn beta in Hm.
    apply Z.leb_le in Hm. unfold tooWide. apply Z.ltb_lt.
    unfold labelMarginPixels in Hw. rewrite maxTextWidth_plain by lia. lia. }
  rewrite Ef. reflexivity.
Qed.

Lemma narrow_label_text_never_drawn_witness :
  addTextLine Sample.collaborators 40 (createBlankLabel 19 118)
    (Text Examples.belowLine) 9 88 (Size Examples.belowLine) (F64.of_int 300)
    (Position Examples.belowLine) = None.
Proof.
  refine (narrow_label_text_never_drawn Sample.collaborators 40 (createBlankLabel 19 118)
            300 9 88 Examples.belowLine _ _).
  - split; [apply Z.leb_le | apply Z.ltb_lt]; vm_compute; reflexivity.
  - vm_compute. reflexivity.
Defined.

(** ** Font scaling *)

Lemma of_int_not_nan (n : Z) : F64.is_nan (F64.of_int n) = false.
Proof.
  unfold F64.of_int, binary_normalize, F64.prec, F64.emax.
  destruct n as [| p | p]; [reflexivity | |].
  - pose proof (BR_shape false p 0) as H.
    destruct (binary_round 53 1024 false p 0); [reflexivity .. | contradiction | reflexivity].
  - pose proof (BR_shape true p 0) as H.
    destruct (binary_round 53 1024 true p 0); [reflexivity .. | contradiction | reflexivity].
Qed.

Lemma div_not_nan (x : float64) (sy : bool) (my : positive) (ey : Z) :
  F64.is_nan x = false -> F64.is_nan (F64.div x (S754_finite sy my ey)) = false.
Proof.
  unfold F64.div, F64.prec, F64.emax.
  destruct x as [sx | sx | | sx mx ex]; cbn [SFdiv F64.is_nan]; try reflexivity;
    [discriminate |].
  intros _. unfold SFdiv_core_binary.
  match goal with
  | |- context [Z.div_eucl ?a ?b] =>
      pose proof (F64Facts.div_eucl_nonneg a b) as Hq;
      destruct (Z.div_eucl a b) as [q r] eqn:Eq
  end.
  cbn [fst] in Hq.
  assert (Hq0 : 0 <= q).
  { apply Hq; [| lia].
    match goal with
    | |- 0 <= match ?s with _ => _ end => destruct s; try lia
    end.
    rewrite Z.shiftl_mul_pow2 by lia.
    apply Z.mul_nonneg_nonneg; [lia | apply Z.pow_nonneg; lia]. }
  match goal with
  | |- F64.is_nan (binary_round_aux _ _ ?s' ?mx' ?ex' ?lx') = false =>
      pose proof (F64Facts.BRA_shape s' mx' ex' lx' Hq0) as Hs;
      destruct (binary_round_aux 53 1024 s' mx' ex' lx');
      [reflexivity .. | contradiction | reflexivity]
  end.
Qed.

Lemma add_not_nan (sx : bool) (mx : positive) (ex : Z) (y : float64) :
  F64.is_nan y = false -> F64.is_nan (F64.add (S754_finite sx mx ex) y) = false.
Proof.
  unfold F64.add, F64.prec, F64.emax.
  destruct y as [sy | sy | | sy my ey]; cbn [SFadd F64.is_nan]; try reflexivity;
    [discriminate |].
  intros _. unfold binary_normalize.
  match goal with
  | |- F64.is_nan (match ?z with _ => _ end) = false => destruct z as [| p | p]
  end; [reflexivity | |].
  - match goal with
    | |- F64.is_nan (binary_round _ _ ?s ?m ?e) = false =>
        pose proof (BR_shape s m e) as H;
        destruct (binary_round 53 1024 s m e);
        [reflexivity .. | contradiction | reflexivity]
    end.
  - match goal with
    | |- F64.is_nan (binary_round _ _ ?s ?m ?e) = false =>
        pose proof (BR_shape s m e) as H;
        destruct (binary_round 53 1024 s m e);
        [reflexivity .. | contradiction | reflexivity]
    end.
Qed.

(** X14.  A font size is scaled by a factor that depends on the label
    width only and is a number from 1.1 to 2.0 for every label width,
    negative and out-of-range widths included: it is never a NaN, never
    below 1.1 and never above 2.0. *)
Theorem scale_factor_is_clamped (labelWidth : Z) :
  exists factor,
    (forall fontSize,
       scaleFontByLabelWidth fontSize labelWidth = F64.mul fontSize factor)
    /\ F64.is_nan factor = false
    /\ F64.ltb factor F64.c1_1 = false
    /\ F64.ltb F64.c2_0 factor = false.
Proof.
  exists (scaleFactorFor labelWidth). split; [reflexivity |].
  unfold scaleFactorFor.
  set (sf := F64.add F64.c1_0
               (F64.div (F64.of_int (Int.sub labelWidth 200)) (F64.of_int 1000))).
  assert (Hn : F64.is_nan sf = false).
  { subst sf.
    change F64.c1_0 with (S754_finite false 4503599627370496 (-52)).
    apply add_not_nan.
    change (F64.of_int 1000) with (S754_finite false 8796093022208000 (-43)).
    apply div_not_nan, of_int_not_nan. }
  destruct (F64.ltb F64.c2_0 sf) eqn:E2.
  - repeat split; reflexivity.
  - destruct (F64.ltb sf F64.c1_1) eqn:E1.
    + repeat split; reflexivity.
    + repeat split; assumption.
Qed.

(** ** Sizing and placing the symbol, continued *)

Lemma sub_zero_canonZ (n : Z) : F64.sub (F64.canonZ n) F64.c0_0 = F64.canonZ n.
Proof.
  unfold F64.canonZ, F64.fin, F64.sub, F64.c0_0.
  match goal with
  | |- context [match ?m with Zpos _ => _ | _ => _ end] => destruct m
  end; cbn [SFsub]; try reflexivity; destruct (n <? 0); reflexivity.
Qed.

(** X15.  With no text lines the side asked for a QR symbol is the
    smaller of the label's width and height in pixels, for every
    request: nothing is reserved for text. *)
Theorem qr_side_without_text (C : Collaborators) (input : BarcodeInput) :
  BarcodeType_ input = BarcodeTypeQR -> TextLines input = [] ->
  let labelWidth := mmToPixels (Width input) (Dpi input) in
  let labelHeight := mmToPixels (Height input) (Dpi input) in
  calculateBarcodeSize C input labelWidth labelHeight
  = Pt (Z.min labelWidth labelHeight) (Z.min labelWidth labelHeight).
Proof.
  intros Ht Hl W H. unfold calculateBarcodeSize. rewrite Ht.
  change (String.eqb BarcodeTypeQR BarcodeTypeCode128) with false. cbv iota.
  unfold calculateQRSize, calculateTextHeight. rewrite Hl. cbn [fold_left].
  assert (RW : Int.in_range W) by apply mmToPixels_in_range.
  assert (RH : Int.in_range H) by apply mmToPixels_in_range.
  assert (EW : F64.exact_int W) by apply mmToPixels_exact.
  assert (EH : F64.exact_int H) by apply mmToPixels_exact.
  rewrite (to_int_Min_of_int W H) by assumption.
  rewrite (F64Facts.of_int_exact H) by auto using in_range_abs.
  rewrite sub_zero_canonZ.
  rewrite F64Facts.of_int_exact
    by auto using exact_int_min, in_range_abs, in_range_min.
  rewrite F64Facts.Min_canonZ by auto using exact_int_min.
  rewrite F64Facts.to_int_canonZ
    by auto using exact_int_min, in_range_min.
  replace (Z.min (Z.min W H) H) with (Z.min W H) by lia. reflexivity.
Qed.

Lemma qr_side_without_text_witness :
  let labelWidth :=
    mmToPixels (Width (MkBarcodeInput "https://example.com" BarcodeTypeQR
                         (Examples.mm 500) (Examples.mm 300) 300 []))
      (Dpi (MkBarcodeInput "https://example.com" BarcodeTypeQR
              (Examples.mm 500) (Examples.mm 300) 300 [])) in
  let labelHeight :=
    mmToPixels (Height (MkBarcodeInput "https://example.com" BarcodeTypeQR
                          (Examples.mm 500) (Examples.mm 300) 300 []))
      (Dpi (MkBarcodeInput "https://example.com" BarcodeTypeQR
              (Examples.mm 500) (Examples.mm 300) 300 [])) in
  calculateBarcodeSize Sample.collaborators
    (MkBarcodeInput "https://example.com" BarcodeTypeQR
       (Examples.mm 500) (Examples.mm 300) 300 [])
    labelWidth labelHeight
  = Pt (Z.min labelWidth labelHeight) (Z.min labelWidth labelHeight).
Proof.
  refine (qr_side_without_text Sample.collaborators
            (MkBarcodeInput "https://example.com" BarcodeTypeQR
               (Examples.mm 500) (Examples.mm 300) 300 []) _ _);
    reflexivity.
Defined.

(** X16.  A Code128 symbol on a label more than 20 pixels wide, scaled
    by a scaler that gives the symbol the size asked for, is drawn from
    margin to margin: its rectangle starts 10 pixels from the left edge,
    ends 10 pixels from the right edge, and is centred vertically at the
    smaller of half the label height and 200 pixels. *)
Theorem code128_symbol_spans_the_margins (C : Collaborators) (input : BarcodeInput)
    (bc : Barcode) (img : RGBA) (barcodeRect : Rectangle) :
  let labelWidth := mmToPixels (Width input) (Dpi input) in
  let labelHeight := mmToPixels (Height input) (Dpi input) in
  let symbolHeight := Z.min (Z.quot labelHeight 2) 200 in
  BarcodeType_ input = BarcodeTypeCode128 ->
  20 < labelWidth -> 0 <= labelHeight ->
  (forall scaled,
     barcode_Scale C bc (labelWidth - 20) symbolHeight = inl scaled ->
     bcBounds scaled = image_Rect 0 0 (labelWidth - 20) symbolHeight) ->
  renderLabel C input bc = Ok (img, barcodeRect) ->
  barcodeRect
  = MkRect (Pt labelMarginPixels ((labelHeight - symbolHeight) / 2))
      (Pt (labelWidth - labelMarginPixels)
          ((labelHeight - symbolHeight) / 2 + symbolHeight))
  /\ Bounds img = image_Rect 0 0 labelWidth labelHeight
  /\ 0 <= Y (Min barcodeRect) /\ Y (Max barcodeRect) <= labelHeight.
Proof.
  intros W H hh Ht HW HH Hscale. unfold renderLabel, scaleBarcodeToFit.
  fold W H. unfold calculateBarcodeSize. rewrite Ht.
  change (String.eqb BarcodeTypeCode128 BarcodeTypeCode128) with true. cbv iota.
  assert (RW : Int.in_range W) by apply mmToPixels_in_range.
  assert (RH : Int.in_range H) by apply mmToPixels_in_range.
  rewrite (calculateCode128Size_spec W H RW HW RH)
    by apply mmToPixels_half_exact.
  fold hh. cbn [X Y].
  destruct (barcode_Scale C bc (W - 20) hh) as [scaled | e] eqn:Es; [| discriminate].
  destruct (createBlankLabel_panics W H); [discriminate |].
  intros Hr. injection Hr as <- <-.
  assert (Hq : 0 <= Z.quot H 2 <= H).
  { rewrite Z.quot_div_nonneg by lia. split; [apply Z.div_pos; lia |].
    apply Z.div_le_upper_bound; lia. }
  assert (Hhh : 0 <= hh <= H) by (unfold hh; lia).
  rewrite (centerBarcodeOnLabel_rect (createBlankLabel W H) scaled W H (W - 20) hh);
    [| reflexivity | now apply Hscale | lia | lia
     | destruct RW; assumption | destruct RH; assumption].
  replace (W - (W - 20)) with 20 by lia.
  change (20 / 2) with 10. unfold labelMarginPixels. cbn [Min Max X Y].
  pose proof (Z.div_mod (H - hh) 2 ltac:(lia)) as DH.
  pose proof (Z.mod_pos_bound (H - hh) 2 ltac:(lia)) as MH.
  split; [f_equal; f_equal; lia |]. split; [reflexivity |]. lia.
Qed.

Lemma code128_symbol_spans_the_margins_witness :
  let labelWidth := mmToPixels (Width Examples.overlong) (Dpi Examples.overlong) in
  let labelHeight := mmToPixels (Height Examples.overlong) (Dpi Examples.overlong) in
  let symbolHeight := Z.min (Z.quot labelHeight 2) 200 in
  MkRect (Pt 10 88) (Pt 580 265)
  = MkRect (Pt labelMarginPixels ((labelHeight - symbolHeight) / 2))
      (Pt (labelWidth - labelMarginPixels)
          ((labelHeight - symbolHeight) / 2 + symbolHeight))
  /\ Bounds (drawBarcodeOnLabel (createBlankLabel 590 354)
               (MkBarcode "1234567890" 1 (image_Rect 0 0 570 177))
               (MkRect (Pt 10 88) (Pt 580 265)))
     = image_Rect 0 0 labelWidth labelHeight
  /\ 0 <= Y (Min (MkRect (Pt 10 88) (Pt 580 265)))
  /\ Y (Max (MkRect (Pt 10 88) (Pt 580 265))) <= labelHeight.
Proof.
  refine (code128_symbol_spans_the_margins Sample.collaborators Examples.overlong
            (MkBarcode "1234567890" 1 (image_Rect 0 0 145 1))
            (drawBarcodeOnLabel (createBlankLabel 590 354)
               (MkBarcode "1234567890" 1 (image_Rect 0 0 570 177))
               (MkRect (Pt 10 88) (Pt 580 265)))
            (MkRect (Pt 10 88) (Pt 580 265)) _ _ _ _ _).
  - reflexivity.
  - apply Z.ltb_lt. vm_compute. reflexivity.
  - apply Z.leb_le. vm_compute. reflexivity.
  - intros scaled Hs. vm_compute in Hs. injection Hs as <-. vm_compute. reflexivity.
  - vm_compute. reflexivity.
Defined.

(** ** The blank label and the resolution *)



(** X18.  The resolution survives the way from [int] to [float64] and
    back that it takes through [addTextLine]: for a resolution of a
    magnitude below 2^53, such as the three that pass validation, the
    initial size and line height of a text line are those of
    [getFontSize] at that resolution, and the line height of a fitted
    line is the one of the size it is fitted to at that resolution. *)
Theorem resolution_survives_conversion (C : Collaborators) (dpi : Z) :
  Z.abs dpi < 2 ^ 53 ->
  F64.to_int (F64.of_int dpi) = dpi
  /\ (forall fuel img text centerX baseY size position,
        addTextLine C fuel img text centerX baseY size (F64.of_int dpi) position
        = addTextLineRecursive C fuel img text centerX baseY
            (fst (getFontSize C size dpi (Dx (Bounds img))))
            (snd (getFontSize C size dpi (Dx (Bounds img))))
            (F64.of_int dpi) position)
  /\ (forall fuel img textLine s h,
        fitted C fuel img dpi textLine = Some (s, h) ->
        h = calculateFontHeight C s dpi).
Proof.
  intros Hd.
  assert (E : F64.to_int (F64.of_int dpi) = dpi).
  { rewrite of_int_small by exact Hd. apply F64Facts.to_int_canonZ.
    - apply F64Facts.exact_int_small. exact Hd.
    - unfold Int.in_range, Int.min_int, Int.max_int. lia. }
  split; [exact E |]. split.
  - intros. unfold addTextLine. rewrite E. reflexivity.
  - intros fuel img textLine s h Hf. apply fitted_height in Hf. now rewrite E in Hf.
Qed.

Lemma resolution_survives_conversion_witness :
  F64.to_int (F64.of_int 203) = 203
  /\ (forall fuel img text centerX baseY size position,
        addTextLine Sample.collaborators fuel img text centerX baseY size
          (F64.of_int 203) position
        = addTextLineRecursive Sample.collaborators fuel img text centerX baseY
            (fst (getFontSize Sample.collaborators size 203 (Dx (Bounds img))))
            (snd (getFontSize Sample.collaborators size 203 (Dx (Bounds img))))
            (F64.of_int 203) position)
  /\ (forall fuel img textLine s h,
        fitted Sample.collaborators fuel img 203 textLine = Some (s, h) ->
        h = calculateFontHeight Sample.collaborators s 203).
Proof.
  refine (resolution_survives_conversion Sample.collaborators 203 _).
  apply Z.ltb_lt. reflexivity.
Defined.

(** ** The sign of a pixel count *)

Lemma BRA_sign (s : bool) (mx ex : Z) (lx : location) :
  0 <= mx ->
  F64.is_nan (binary_round_aux 53 1024 s mx ex lx) = false
  /\ F64.signbit (binary_round_aux 53 1024 s mx ex lx) = s.
Proof.
  intros H. pose proof (F64Facts.BRA_shape s mx ex lx H) as Hs.
  destruct (binary_round_aux 53 1024 s mx ex lx); cbn [F64.is_nan F64.signbit];
    intuition.
Qed.

Lemma mul_sign (x : float64) (my : positive) (ey : Z) :
  F64.is_nan x = false ->
  F64.is_nan (F64.mul x (S754_finite false my ey)) = false
  /\ F64.signbit (F64.mul x (S754_finite false my ey)) = F64.signbit x
  /\ (forall s, x = S754_zero s -> F64.mul x (S754_finite false my ey) = S754_zero s).
Proof.
  unfold F64.mul, F64.prec, F64.emax.
  destruct x as [sx | sx | | sx mx ex]; cbn [SFmul F64.is_nan F64.signbit];
    try discriminate; intros _; rewrite ?Bool.xorb_false_r.
  - repeat split. intros s Hs. exact Hs.
  - repeat split. discriminate.
  - destruct (BRA_sign sx (Zpos (mx * my)) (ex + ey) loc_Exact ltac:(lia)) as [Hn Hs].
    repeat split; [exact Hn | exact Hs | discriminate].
Qed.

Lemma div_sign (x : float64) (my : positive) (ey : Z) :
  F64.is_nan x = false ->
  F64.is_nan (F64.div x (S754_finite false my ey)) = false
  /\ F64.signbit (F64.div x (S754_finite false my ey)) = F64.signbit x
  /\ (forall s, x = S754_zero s -> F64.div x (S754_finite false my ey) = S754_zero s).
Proof.
  intros Hx. split; [now apply div_not_nan |]. revert Hx.
  unfold F64.div, F64.prec, F64.emax.
  destruct x as [sx | sx | | sx mx ex]; cbn [SFdiv F64.is_nan F64.signbit];
    try discriminate; intros _; rewrite ?Bool.xorb_false_r.
  - split; [reflexivity |]. intros s Hs. exact Hs.
  - split; [reflexivity | discriminate].
  - split; [| discriminate]. unfold SFdiv_core_binary.
    match goal with
    | |- context [Z.div_eucl ?a ?b] =>
        pose proof (F64Facts.div_eucl_nonneg a b) as Hq;
        destruct (Z.div_eucl a b) as [q r] eqn:Eq
    end.
    cbn [fst] in Hq.
    assert (Hq0 : 0 <= q).
    { apply Hq; [| lia].
      match goal with
      | |- 0 <= match ?s with _ => _ end => destruct s; try lia
      end.
      rewrite Z.shiftl_mul_pow2 by lia.
      apply Z.mul_nonneg_nonneg; [lia | apply Z.pow_nonneg; lia]. }
    match goal with
    | |- F64.signbit (binary_round_aux _ _ ?s' ?mx' ?ex' ?lx') = _ =>
        apply (BRA_sign s' mx' ex' lx' Hq0)
    end.
Qed.

Lemma to_int_sign (x : float64) :
  (F64.signbit x = true -> F64.to_int x <= 0)
  /\ (F64.signbit x = false -> 0 <= F64.to_int x \/ F64.to_int x = Int.min_int).
Proof.
  destruct x as [s | s | | s m e]; cbn [F64.signbit F64.to_int];
    try (split; intros _; (lia || (right; reflexivity) || (unfold Int.min_int; lia))).
  assert (Ht : 0 <= F64.trunc_mag m e).
  { rewrite F64Facts.trunc_mag_spec. destruct (Z.ltb_spec e 0).
    - apply Z.div_pos; [lia | apply Z.pow_pos_nonneg; lia].
    - apply Z.mul_nonneg_nonneg; [lia | apply Z.pow_nonneg; lia]. }
  split; intros ->.
  - destruct (_ && _); [lia | unfold Int.min_int; lia].
  - destruct (_ && _); [left; lia | right; reflexivity].
Qed.

(** X19.  The sign of a pixel count at a positive resolution.  A length
    of zero gives zero pixels; a negative length never gives a positive
    number of pixels; a length that is not negative gives a number of
    pixels that is not negative, unless the count does not fit an [int],
    where the conversion of amd64 yields the most negative one. *)
Theorem mmToPixels_sign (mm : float64) (dpi : Z) :
  0 < dpi < 2 ^ 53 -> F64.is_nan mm = false ->
  (forall s, mm = S754_zero s -> mmToPixels mm dpi = 0)
  /\ (F64.signbit mm = true -> mmToPixels mm dpi <= 0)
  /\ (F64.signbit mm = false ->
        0 <= mmToPixels mm dpi \/ mmToPixels mm dpi = Int.min_int).
Proof.
  intros Hd Hn. unfold mmToPixels.
  assert (Hof : exists m e, F64.of_int dpi = S754_finite false m e).
  { rewrite of_int_small by lia. rewrite F64Facts.canonZ_small by lia.
    replace (dpi <? 0) with false by (symmetry; apply Z.ltb_ge; lia).
    assert (0 < Z.abs dpi * 2 ^ (52 - Z.log2 (Z.abs dpi))).
    { apply Z.mul_pos_pos; [lia |]. apply Z.pow_pos_nonneg; [lia |].
      assert (Z.log2 (Z.abs dpi) < 53) by (apply Z.log2_lt_pow2; lia). lia. }
    destruct (Z.abs dpi * 2 ^ (52 - Z.log2 (Z.abs dpi))) as [| p | p]; try lia.
    cbn [F64.fin]. eauto. }
  destruct Hof as (m & e & ->).
  destruct (mul_sign mm m e Hn) as (Hn1 & Hs1 & Hz1).
  change F64.c25_4 with (S754_finite false 7149464408450662 (-48)).
  destruct (div_sign (F64.mul mm (S754_finite false m e)) 7149464408450662 (-48) Hn1)
    as (Hn2 & Hs2 & Hz2).
  destruct (to_int_sign
              (F64.div (F64.mul mm (S754_finite false m e))
                 (S754_finite false 7149464408450662 (-48)))) as (Hneg & Hpos).
  rewrite Hs2, Hs1 in Hneg, Hpos.
  split; [| split; assumption].
  intros s Hs. rewrite (Hz2 s (Hz1 s Hs)). reflexivity.
Qed.

Lemma mmToPixels_sign_witness :
  (forall s, Examples.mm (-500) = S754_zero s -> mmToPixels (Examples.mm (-500)) 300 = 0)
  /\ (F64.signbit (Examples.mm (-500)) = true -> mmToPixels (Examples.mm (-500)) 300 <= 0)
  /\ (F64.signbit (Examples.mm (-500)) = false ->
        0 <= mmToPixels (Examples.mm (-500)) 300
        \/ mmToPixels (Examples.mm (-500)) 300 = Int.min_int).
Proof.
  refine (mmToPixels_sign (Examples.mm (-500)) 300 _ _).
  - split; apply Z.ltb_lt; reflexivity.
  - vm_compute. reflexivity.
Defined.
